(** * Network-Simulation: the ARQ node of [main.cpp]

    A shallow embedding of the [Packet] / [Node] code of the repository.

    - [Node::send] and [Node::receive] are sequential code that mutates the
      nodes it is given by reference, the shared generator and [cout], and
      that throws: they are functions in a state-and-exception monad over
      a [World].
    - [Node::processPackets] runs on a thread of its own, concurrently with
      [receive] and [stop]: it is a labelled step function on the thread's
      program points, interleaved with the critical sections of the other
      threads.

    The repository holds two revisions of the program.  [src/main.cpp]
    has a [receive] that enqueues every packet; the second revision
    (the commented one) adds loss and corruption injection to [receive].
    Everything else is the same text in both; the two [receive]s live in
    the modules [Plain] and [Lossy]. *)

From Stdlib Require Import ZArith List String Bool Lia PrimFloat.
Import ListNotations.

Local Open Scope string_scope.
Local Open Scope list_scope.
Local Open Scope Z_scope.

Set Implicit Arguments.

(** ** Data model *)

(** [enum class PacketType { DATA, ACK }] *)
Inductive PacketType : Type := DATA | ACK.

(** [struct Packet { std::string data; int sequenceNumber; PacketType type; }] *)
Record Packet : Type := mkPacket {
  data : string;
  sequenceNumber : Z;
  type : PacketType
}.

(** The state of a [Node] object: its [name], its [buffer] (a
    [std::queue<Packet>]: pushed at the back, popped at the front) and its
    [running] flag.  [bufferMutex] and [bufferCV] carry no data; the
    reference [gen] is the generator of the [World]. *)
Record Node : Type := mkNode {
  name : string;
  buffer : list Packet;
  running : bool
}.

(** [explicit Node(std::string nodeName, std::mt19937 &genRef)], with the
    default member initialiser [running = true]. *)
Definition newNode (nodeName : string) : Node :=
  {| name := nodeName; buffer := []; running := true |}.

(** [buffer.push(packet)] *)
Definition push (packet : Packet) (n : Node) : Node :=
  {| name := name n; buffer := buffer n ++ [packet]; running := running n |}.

(** [running = b] *)
Definition set_running (b : bool) (n : Node) : Node :=
  {| name := name n; buffer := buffer n; running := b |}.

(** [std::exception], observed through [what()].  The program constructs
    only [std::runtime_error]s. *)
Inductive exception : Type := runtime_error (what_arg : string).

Definition what (e : exception) : string :=
  match e with runtime_error s => s end.

(** [static constexpr int MAX_RETRIES = 3] *)
Definition MAX_RETRIES : Z := 3.

(** The lines written to [cout], one constructor per output statement of
    the program, holding the values streamed into the line. *)
Inductive Event : Type :=
  (* name " is sending " DATA|ACK " packet: " data " (Seq: " seq ") to " receiver " (Attempt " n ")" *)
  | Sending (who : string) (t : PacketType) (d : string) (seq : Z)
            (to : string) (attempt : Z)
  (* name " failed to send packet to " receiver ": " e.what() *)
  | SendFailed (who : string) (to : string) (msg : string)
  (* name " failed to send packet (Seq: " seq ") to " receiver " after " MAX_RETRIES " attempts." *)
  | SendGaveUp (who : string) (seq : Z) (to : string) (attempts : Z)
  (* name " dropped packet: " data " (Seq: " seq ")" *)
  | Dropped (who : string) (d : string) (seq : Z)
  (* name " received corrupted packet: " data " (Seq: " seq ")" *)
  | ReceivedCorrupted (who : string) (d : string) (seq : Z)
  (* name " received " DATA|ACK " packet: " data " (Seq: " seq ")" *)
  | Received (who : string) (t : PacketType) (d : string) (seq : Z)
  (* name " is processing packet: " data " (Seq: " seq ")" *)
  | Processing (who : string) (d : string) (seq : Z)
  (* name " encountered an error while processing packets: " e.what() *)
  | ProcessingError (who : string) (msg : string)
  (* name " is stopping packet processing." *)
  | Stopping (who : string).

(** ** The random engine

    [<random>] is not part of the repository.  The program draws from the
    one [std::mt19937] it shares by reference, through
    [std::uniform_int_distribution<>(a, b)] and
    [std::uniform_real_distribution<>(a, b)]; both are taken as
    operations of the generator state.  A [double] is a binary64
    [float], compared with the primitive [<?]. *)
Class Engine (G : Type) : Type := {
  uniform_int : Z -> Z -> G -> Z * G;
  uniform_real : float -> float -> G -> float * G
}.

(** The literals [0.1] and [0.05] of [receive]: the compiler rounds them
    to the nearest binary64 values, written here digit for digit. *)
Definition LOSS : float := 0x1.999999999999ap-4%float.
Definition CORRUPTION : float := 0x1.999999999999ap-5%float.

(** [x < threshold] on [double]s. *)
Definition below (x threshold : float) : bool := PrimFloat.ltb x threshold.

(** ** Worlds

    Nodes are passed by reference ([Node &receiver], [*this]); a reference
    is an address into the store of [Node] objects.  A reference always
    denotes an object, so the store is total. *)
Definition addr : Type := nat.

Definition upd (h : addr -> Node) (a : addr) (n : Node) : addr -> Node :=
  fun b => if Nat.eqb b a then n else h b.

(** A call either returns or throws; the effects it had up to the throw
    stay in the world. *)
Inductive outcome (A : Type) : Type :=
  | Returned (a : A)
  | Thrown (e : exception).
Arguments Thrown {A} e.

Section Worlds.

Context {G : Type}.

(** Everything the sequential code reads and writes: the [Node] objects,
    the shared generator and what has been written to [cout] (oldest line
    first). *)
Record World : Type := mkWorld {
  nodes : addr -> Node;
  gen : G;
  cout : list Event
}.

(** Computations.  [None] is not a behaviour of the program: it is the
    model running out of the loop or call-depth budget of a [Fixpoint]
    below; the theorems show it does not happen. *)
Definition M (A : Type) : Type := World -> option (outcome A * World).

Definition ret {A} (a : A) : M A := fun w => Some (Returned a, w).

Definition bind {A B} (m : M A) (k : A -> M B) : M B :=
  fun w =>
    match m w with
    | None => None
    | Some (Thrown e, w') => Some (Thrown e, w')
    | Some (Returned a, w') => k a w'
    end.

(** [throw e] *)
Definition throw {A} (e : exception) : M A := fun w => Some (Thrown e, w).

(** [try { body } catch (const std::exception &e) { handler }] *)
Definition try_catch {A} (body : M A) (handler : exception -> M A) : M A :=
  fun w =>
    match body w with
    | None => None
    | Some (Thrown e, w') => handler e w'
    | Some (Returned a, w') => Some (Returned a, w')
    end.

(** No behaviour: the budget of the model is used up. *)
Definition out_of_budget {A} : M A := fun _ => None.

(** The world after one more line on [cout]. *)
Definition printed (line : World -> Event) (w : World) : World :=
  {| nodes := nodes w; gen := gen w; cout := cout w ++ [line w] |}.

(** [cout << ... << endl], under [coutMutex]: the line is computed from the
    world it is written in. *)
Definition print (line : World -> Event) : M unit :=
  fun w => Some (Returned tt, printed line w).

(** The world after an update of the object at [a]. *)
Definition updated (a : addr) (f : Node -> Node) (w : World) : World :=
  {| nodes := upd (nodes w) a (f (nodes w a)); gen := gen w; cout := cout w |}.

Definition on_node (a : addr) (f : Node -> Node) : M unit :=
  fun w => Some (Returned tt, updated a f w).

(** The world after a draw [dist(gen)]. *)
Definition drawn {A} (dist : G -> A * G) (w : World) : World :=
  {| nodes := nodes w; gen := snd (dist (gen w)); cout := cout w |}.

(** A draw [dist(gen)]: the value is returned and the generator moves on. *)
Definition draw {A} (dist : G -> A * G) : M A :=
  fun w => Some (Returned (fst (dist (gen w))), drawn dist w).

(** [getName()] of the object at [a]. *)
Definition getName (a : addr) (w : World) : string := name (nodes w a).

End Worlds.

Arguments World G : clear implicits.
Arguments M G A : clear implicits.

Notation "x <- m ;; k" := (bind m (fun x => k))
  (at level 61, m at next level, right associativity).
Notation "m ;; k" := (bind m (fun _ => k))
  (at level 61, right associativity).

(** ** [Node::send]

    [receiver.receive(packet, *this)] is the parameter [recv], called as
    [recv receiver packet self], so that the retry loop can also be run
    against a receiver that is made to throw. *)
Section Send.

Context {G : Type} {E : Engine G}.
Variable recv : addr -> Packet -> addr -> M G unit.
Variables (self : addr) (packet : Packet) (receiver : addr).

Definition sending_line (retryCount : Z) (w : World G) : Event :=
  Sending (getName self w) (type packet) (data packet) (sequenceNumber packet)
          (getName receiver w) (retryCount + 1).

Definition send_failed_line (e : exception) (w : World G) : Event :=
  SendFailed (getName self w) (getName receiver w) (what e).

Definition gave_up_line (w : World G) : Event :=
  SendGaveUp (getName self w) (sequenceNumber packet) (getName receiver w)
             MAX_RETRIES.

(** [std::this_thread::sleep_for(std::chrono::milliseconds(delay(gen)))]
    with [std::uniform_int_distribution<> delay(500, 1000)]: the draw moves
    the generator; the sleep itself changes nothing in the world. *)
Definition network_delay : M G unit :=
  _ <- draw (uniform_int 500 1000) ;; ret tt.

(** The [while (retryCount < MAX_RETRIES)] loop and what follows it.
    [budget] bounds the number of iterations the model unfolds. *)
Fixpoint send_loop (budget : nat) (retryCount : Z) : M G unit :=
  if retryCount <? MAX_RETRIES then
    match budget with
    | O => out_of_budget
    | S budget' =>
        print (sending_line retryCount) ;;
        network_delay ;;
        try_catch
          (recv receiver packet self (* ; return *))
          (fun e =>
             print (send_failed_line e) ;;
             send_loop budget' (retryCount + 1))
    end
  else
    print gave_up_line ;;
    throw (runtime_error "Failed to send packet after maximum retries").

(** [void send(const Packet &packet, Node &receiver)], starting with
    [int retryCount = 0]. *)
Definition send_with : M G unit := send_loop (Z.to_nat MAX_RETRIES) 0.

End Send.

(** ** [Node::receive]

    [send(ackPacket, sender)] is the parameter [send], called as
    [send self ackPacket sender]; [receive] below closes the recursion. *)

Definition received_line {G} (self : addr) (p : Packet) (w : World G) : Event :=
  Received (getName self w) (type p) (data p) (sequenceNumber p).

(** [Packet ackPacket{"ACK", packet.sequenceNumber, PacketType::ACK}] *)
Definition ackPacket (p : Packet) : Packet :=
  {| data := "ACK"; sequenceNumber := sequenceNumber p; type := ACK |}.

(** The world after [packet] has been pushed on the buffer of [self] and
    the "received" line written. *)
Definition delivered {G} (self : addr) (packet : Packet) (w : World G) : World G :=
  printed (received_line self packet) (updated self (push packet) w).

(** The revision of [src/main.cpp]. *)
Module Plain.
Section Receive.

Context {G : Type} {E : Engine G}.

Definition receive_with (send : addr -> Packet -> addr -> M G unit)
    (self : addr) (packet : Packet) (sender : addr) : M G unit :=
  on_node self (push packet) ;;          (* under bufferMutex *)
  (* bufferCV.notify_one() *)
  print (received_line self packet) ;;
  match type packet with
  | DATA => send self (ackPacket packet) sender
  | ACK => ret tt
  end.

(** [send] and [receive] call each other; [depth] bounds the nesting of
    [receive] inside [send] inside [receive] that the model unfolds. *)
Fixpoint receive (depth : nat) (self : addr) (packet : Packet) (sender : addr)
    {struct depth} : M G unit :=
  receive_with
    (fun this ack to =>
       match depth with
       | O => out_of_budget
       | S depth' => send_with (receive depth') this ack to
       end)
    self packet sender.

Definition send (depth : nat) : addr -> Packet -> addr -> M G unit :=
  send_with (receive depth).

End Receive.
End Plain.

(** The revision with loss and corruption injection. *)
Module Lossy.
Section Receive.

Context {G : Type} {E : Engine G}.

Definition dropped_line (self : addr) (p : Packet) (w : World G) : Event :=
  Dropped (getName self w) (data p) (sequenceNumber p).

Definition corrupted_line (self : addr) (p : Packet) (w : World G) : Event :=
  ReceivedCorrupted (getName self w) (data p) (sequenceNumber p).

(** [receivedPacket.data = "CORRUPTED"] *)
Definition corrupt (p : Packet) : Packet :=
  {| data := "CORRUPTED"; sequenceNumber := sequenceNumber p; type := type p |}.

Definition receive_with (send : addr -> Packet -> addr -> M G unit)
    (self : addr) (packet : Packet) (sender : addr) : M G unit :=
  loss <- draw (uniform_real 0 1) ;;
  if below loss LOSS then
    print (dropped_line self packet) (* ; return *)
  else
    let receivedPacket := packet in
    corruption <- draw (uniform_real 0 1) ;;
    receivedPacket <-
      (if below corruption CORRUPTION then
         let receivedPacket := corrupt receivedPacket in
         print (corrupted_line self receivedPacket) ;;
         ret receivedPacket
       else ret receivedPacket) ;;
    on_node self (push receivedPacket) ;;  (* under bufferMutex *)
    (* bufferCV.notify_one() *)
    print (received_line self receivedPacket) ;;
    match type receivedPacket with
    | DATA => send self (ackPacket receivedPacket) sender
    | ACK => ret tt
    end.

Fixpoint receive (depth : nat) (self : addr) (packet : Packet) (sender : addr)
    {struct depth} : M G unit :=
  receive_with
    (fun this ack to =>
       match depth with
       | O => out_of_budget
       | S depth' => send_with (receive depth') this ack to
       end)
    self packet sender.

Definition send (depth : nat) : addr -> Packet -> addr -> M G unit :=
  send_with (receive depth).

(** The two samples a call of [receive] in world [w] draws, and the tests
    made on them. *)
Definition lost (w : World G) : bool :=
  below (fst (uniform_real 0 1 (gen w))) LOSS.

Definition corrupted (w : World G) : bool :=
  below (fst (uniform_real 0 1 (gen (drawn (uniform_real 0 1) w)))) CORRUPTION.

(** The world in which a packet that is not lost has been enqueued:
    both samples drawn, the "received corrupted" line if it applies, the
    packet as received on the buffer, the "received" line. *)
Definition landed (self : addr) (packet : Packet) (w : World G) : World G :=
  let w2 := drawn (uniform_real 0 1) (drawn (uniform_real 0 1) w) in
  if corrupted w
  then delivered self (corrupt packet)
                 (printed (corrupted_line self (corrupt packet)) w2)
  else delivered self packet w2.

(** The world a call of [receive] leaves before any acknowledgement: the
    loss sample drawn and the "dropped" line, or the packet enqueued. *)
Definition arrived (self : addr) (packet : Packet) (w : World G) : World G :=
  if lost w
  then printed (dropped_line self packet) (drawn (uniform_real 0 1) w)
  else landed self packet w.

End Receive.
End Lossy.

(** ** [Node::stop]

    [running = false] under [bufferMutex], then [bufferCV.notify_all()]. *)
Definition stop {G} (self : addr) : M G unit :=
  on_node self (set_running false).

(** What [send] throws when its attempts are used up (the spec's
    [DeliveryExhausted]). *)
Definition DeliveryExhausted : exception :=
  runtime_error "Failed to send packet after maximum retries".

Section Wire.

Context {G : Type} {E : Engine G}.
Variables (self : addr) (packet : Packet) (receiver : addr).

(** The world in which attempt [retryCount + 1] reaches the receiver: the
    "sending" line is out and the delay has been drawn. *)
Definition on_the_wire (retryCount : Z) (w : World G) : World G :=
  drawn (uniform_int 500 1000)
        (printed (sending_line self packet receiver retryCount) w).

(** The world after the [catch] block of an attempt that threw [e]. *)
Definition after_failure (e : exception) (w : World G) : World G :=
  printed (send_failed_line self receiver e) w.

End Wire.

(** A receiver made to fail: its [receive] throws at once. *)
Definition failing_receive {G} (_ : addr) (_ : Packet) (_ : addr) : M G unit :=
  throw (runtime_error "receive failed").

(** The "sending" lines among the lines of [cout]. *)
Definition is_sending (ev : Event) : bool :=
  match ev with
  | Sending _ _ _ _ _ _ => true
  | _ => false
  end.

(** What an observer of the nodes and of [cout] sees of a world: all but
    the state of the generator. *)
Definition same_view {G} (w1 w2 : World G) : Prop :=
  nodes w1 = nodes w2 /\ cout w1 = cout w2.

(** [k] calls of [m] in a row. *)
Fixpoint repeatedly {G} (k : nat) (m : M G unit) : M G unit :=
  match k with
  | O => ret tt
  | S k' => m ;; repeatedly k' m
  end.


(** ** [Node::processPackets]

    The method runs on its own thread while other threads call [receive]
    and [stop] on the same node.  The thread is a program counter over the
    statements of the method; one [Run] executes the statement it is at.
    The other threads appear through what they do to this node inside
    their critical sections on [bufferMutex]: [Enqueue] is the
    [buffer.push] of [receive], [Halt] is the assignment of [stop].
    [Raise e] is the statement the thread is at throwing [e]; the program
    has no [throw] inside the [try] block, so an exception there comes from
    a library call ([lock], [push], the stream). *)
Module Worker.

Inductive pc : Type :=
  | AtWhile                (* while (running) *)
  | AtLock                 (* std::unique_lock<std::mutex> lock(bufferMutex) *)
  | AtWait                 (* bufferCV.wait(lock, pred): testing pred, lock held *)
  | Waiting                (* inside wait: lock released, thread blocked *)
  | AtBreak                (* if (!running) break *)
  | AtDrain                (* while (!buffer.empty()) { front; pop; unlock *)
  | AtPrint (packet : Packet)  (* cout << ... " is processing packet: " ... *)
  | AtRelock               (* lock.lock() } *)
  | AtStopping             (* cout << ... " is stopping packet processing." *)
  | Done.                  (* returned *)

Record state : Type := mkState {
  node : Node;             (* *this *)
  at_pc : pc;
  locked : bool;           (* this thread owns bufferMutex *)
  out : list Event         (* the lines this thread has written *)
}.

Inductive action : Type :=
  | Run
  | Raise (e : exception)
  | Enqueue (packet : Packet)
  | Halt.

Definition goto (l : pc) (s : state) : state :=
  {| node := node s; at_pc := l; locked := locked s; out := out s |}.

Definition set_lock (b : bool) (s : state) : state :=
  {| node := node s; at_pc := at_pc s; locked := b; out := out s |}.

Definition with_node (f : Node -> Node) (s : state) : state :=
  {| node := f (node s); at_pc := at_pc s; locked := locked s; out := out s |}.

Definition say (ev : Event) (s : state) : state :=
  {| node := node s; at_pc := at_pc s; locked := locked s; out := out s ++ [ev] |}.

(** [buffer.pop()] *)
Definition pop (n : Node) : Node :=
  {| name := name n; buffer := tl (buffer n); running := running n |}.

(** The statements enclosed by [try { ... }]. *)
Definition in_try (l : pc) : bool :=
  match l with
  | AtLock | AtWait | Waiting | AtBreak | AtDrain | AtPrint _ | AtRelock => true
  | AtWhile | AtStopping | Done => false
  end.

(** The predicate of the wait: [!buffer.empty() || !running]. *)
Definition wake_up (n : Node) : bool :=
  negb (match buffer n with [] => true | _ => false end) || negb (running n).

(** [catch (const std::exception &e)]: unwinding destroys [lock], which
    unlocks the mutex if it is owned; then the handler body, and back to
    the loop test. *)
Definition handler (e : exception) (s : state) : state :=
  let s := set_lock false s in
  let s := say (ProcessingError (name (node s)) (what e)) s in
  let s := if String.eqb (what e) "Fatal error"
           then with_node (set_running false) s else s in
  goto AtWhile s.

Definition run_thread (s : state) : option state :=
  match at_pc s with
  | AtWhile =>
      Some (if running (node s) then goto AtLock s else goto AtStopping s)
  | AtLock => Some (goto AtWait (set_lock true s))
  | AtWait =>
      Some (if wake_up (node s) then goto AtBreak s
            else goto Waiting (set_lock false s))
  | Waiting => Some (goto AtWait (set_lock true s))
  | AtBreak =>
      Some (if negb (running (node s))
            then goto AtStopping (set_lock false s)    (* break *)
            else goto AtDrain s)
  | AtDrain =>
      Some (match buffer (node s) with
            | [] => goto AtWhile (set_lock false s)    (* end of the try block *)
            | packet :: _ =>
                goto (AtPrint packet) (set_lock false (with_node pop s))
            end)
  | AtPrint packet =>
      Some (goto AtRelock
              (say (Processing (name (node s)) (data packet)
                               (sequenceNumber packet)) s))
  | AtRelock => Some (goto AtDrain (set_lock true s))
  | AtStopping => Some (goto Done (say (Stopping (name (node s))) s))
  | Done => None
  end.

(** One step of the node under [a]; [None] when [a] cannot happen in [s]:
    another thread cannot enter its critical section while this thread
    owns the mutex, nothing throws outside the [try] block, and a thread
    that has returned does not run. *)
Definition step (a : action) (s : state) : option state :=
  match a with
  | Run => run_thread s
  | Raise e => if in_try (at_pc s) then Some (handler e s) else None
  | Enqueue packet =>
      if locked s then None else Some (with_node (push packet) s)
  | Halt =>
      if locked s then None else Some (with_node (set_running false) s)
  end.

Fixpoint run (trace : list action) (s : state) : option state :=
  match trace with
  | [] => Some s
  | a :: trace' =>
      match step a s with
      | Some s' => run trace' s'
      | None => None
      end
  end.

(** The thread as [std::thread(&Node::processPackets, &node)] starts it. *)
Definition start (n : Node) : state :=
  {| node := n; at_pc := AtWhile; locked := false; out := [] |}.

(** The loop has been left: the thread is at or past the last [cout]. *)
Definition exited (l : pc) : bool :=
  match l with AtStopping | Done => true | _ => false end.

(** The flag is false whenever the thread is past the loop. *)
Definition stopped_if_exited (s : state) : Prop :=
  exited (at_pc s) = true -> running (node s) = false.

End Worker.

(** ** A generator for examples

    It replays a script of [double]s for the real draws (and the lower
    bound once the script is over); every delay is the lower bound. *)
Definition Script : Type := list float.

#[export] Instance script_engine : Engine Script := {|
  uniform_int := fun a _ g => (a, g);
  uniform_real := fun a _ g =>
    match g with
    | [] => (a, [])
    | x :: g' => (x, g')
    end
|}.

(** Two nodes as [main] constructs them, at addresses 0 and 1. *)
Definition two_nodes : addr -> Node :=
  upd (fun _ => newNode "Node A") 1%nat (newNode "Node B").

Definition world0 (script : Script) : World Script :=
  {| nodes := two_nodes; gen := script; cout := [] |}.

(** [Packet packet1{"Test", 1, PacketType::DATA}] *)
Definition packet1 : Packet :=
  {| data := "Test"; sequenceNumber := 1; type := DATA |}.

(** [Packet packet2{"Packet", 2, PacketType::DATA}] *)
Definition packet2 : Packet :=
  {| data := "Packet"; sequenceNumber := 2; type := DATA |}.

(** The thread of node B printing [packet1], with [packet2] still queued. *)
Definition printing_state : Worker.state :=
  {| Worker.node := {| name := "Node B"; buffer := [packet2]; running := true |};
     Worker.at_pc := Worker.AtPrint packet1;
     Worker.locked := false;
     Worker.out := [] |}.

(** A world in which the next four samples are 1/2: nothing is lost or
    corrupted on the way there and back. *)
Definition quiet_world : World Script :=
  world0 [0.5%float; 0.5%float; 0.5%float; 0.5%float].

(** The thread of node B woken from its wait after a packet was enqueued
    and the node stopped, about to test [running]. *)
Definition woken_state : Worker.state :=
  {| Worker.node := {| name := "Node B"; buffer := [packet1]; running := false |};
     Worker.at_pc := Worker.AtBreak;
     Worker.locked := true;
     Worker.out := [] |}.

(** The first attempt of node A at [packet1] reaching node B, with a loss
    sample of 1/16 to come. *)
Definition losing_world : World Script :=
  on_the_wire 0%nat packet1 1%nat 0 (world0 [0.0625%float]).

(** A world with a loss sample of 1/2 and a corruption sample of 1/32 to
    come. *)
Definition corrupting_world : World Script :=
  world0 [0.5%float; 0.03125%float].

(** ** Bookkeeping for [processPackets]

    What a run of the thread has done with the packets it was given. *)
Module Bookkeeping.
Import Worker.

(** The statements at which the thread owns [bufferMutex]: from the
    construction of [lock] or the return of [wait] or [lock.lock()] up to
    the next [unlock]. *)
Definition owns (l : pc) : bool :=
  match l with
  | AtWait | AtBreak | AtDrain => true
  | _ => false
  end.

(** The packet held in the local variable [packet], popped and not yet
    printed. *)
Definition in_flight (l : pc) : list Packet :=
  match l with
  | AtPrint packet => [packet]
  | _ => []
  end.

(** The "is processing" line of a packet. *)
Definition processing_line (who : string) (p : Packet) : Event :=
  Processing who (data p) (sequenceNumber p).

Definition is_processing (ev : Event) : bool :=
  match ev with Processing _ _ _ => true | _ => false end.

Definition is_processing_error (ev : Event) : bool :=
  match ev with ProcessingError _ _ => true | _ => false end.

Definition is_stopping (ev : Event) : bool :=
  match ev with Stopping _ => true | _ => false end.

(** The statements of the inner loop, [while (!buffer.empty())]. *)
Definition in_inner_loop (l : pc) : bool :=
  match l with
  | AtDrain | AtPrint _ | AtRelock => true
  | _ => false
  end.

(** The packets the other threads pushed during a trace, in order. *)
Fixpoint enqueued (trace : list action) : list Packet :=
  match trace with
  | [] => []
  | Enqueue packet :: trace' => packet :: enqueued trace'
  | _ :: trace' => enqueued trace'
  end.

(** No statement throws during the trace. *)
Fixpoint no_raise (trace : list action) : bool :=
  match trace with
  | [] => true
  | Raise _ :: _ => false
  | _ :: trace' => no_raise trace'
  end.

(** The lines written for packets so far, followed by the lines still to
    come for the packet in hand and the packets queued. *)
Definition ledger (who : string) (s : state) : list Event :=
  filter is_processing (out s) ++
  map (processing_line who) (in_flight (at_pc s) ++ buffer (node s)).

(** The number of packets accounted for: printed, in hand or queued. *)
Definition accounted (s : state) : nat :=
  (List.length (filter is_processing (out s)) +
   List.length (in_flight (at_pc s)) + List.length (buffer (node s)))%nat.

(** The number of errors reported. *)
Definition reported (s : state) : nat :=
  List.length (filter is_processing_error (out s)).

(** The "stopping" line is the last line of a thread that has returned and
    is not written before. *)
Definition stopping_once (who : string) (s : state) : Prop :=
  match at_pc s with
  | Done => exists lines,
      out s = lines ++ [Stopping who] /\ filter is_stopping lines = []
  | _ => filter is_stopping (out s) = []
  end.

End Bookkeeping.

(** ** Example runs of the thread *)

(** Node B's thread blocks, two packets arrive, it wakes and pops the
    first: it ends in [printing_state]. *)
Definition busy_trace : list Worker.action :=
  [Worker.Run; Worker.Run; Worker.Run;
   Worker.Enqueue packet1; Worker.Enqueue packet2;
   Worker.Run; Worker.Run; Worker.Run; Worker.Run].

(** The same, and then the print throws. *)
Definition faulty_trace : list Worker.action :=
  busy_trace ++ [Worker.Raise (runtime_error "bad packet")].

Definition faulted_state : Worker.state :=
  {| Worker.node := {| name := "Node B"; buffer := [packet2]; running := true |};
     Worker.at_pc := Worker.AtWhile;
     Worker.locked := false;
     Worker.out := [ProcessingError "Node B" "bad packet"] |}.

(** Node B's thread blocks, a packet arrives, the node is stopped, the
    thread wakes and returns. *)
Definition stopping_trace : list Worker.action :=
  [Worker.Run; Worker.Run; Worker.Run; Worker.Enqueue packet1; Worker.Halt;
   Worker.Run; Worker.Run; Worker.Run; Worker.Run].

Definition returned_state : Worker.state :=
  {| Worker.node := {| name := "Node B"; buffer := [packet1]; running := false |};
     Worker.at_pc := Worker.Done;
     Worker.locked := false;
     Worker.out := [Stopping "Node B"] |}.

(** The thread of node B printing [packet1] with [packet2] queued, after
    the node has been stopped. *)
Definition stopped_printing_state : Worker.state :=
  {| Worker.node := {| name := "Node B"; buffer := [packet2]; running := false |};
     Worker.at_pc := Worker.AtPrint packet1;
     Worker.locked := false;
     Worker.out := [] |}.

(** A node with both packets of [main] queued. *)
Definition loaded_node : Node :=
  {| name := "Node B"; buffer := [packet1; packet2]; running := true |}.

(** ** Bookkeeping for [send] *)

Section Attempts.

Context {G : Type} {E : Engine G}.
Variable recv : addr -> Packet -> addr -> M G unit.
Variables (self : addr) (packet : Packet) (receiver : addr).

(** [receive] throws on [k] attempts in a row, the first of them numbered
    [retryCount + 1], and returns on the next one, leaving [w']. *)
Fixpoint returns_after (k : nat) (retryCount : Z) (w w' : World G) : Prop :=
  match k with
  | O =>
      recv receiver packet self (on_the_wire self packet receiver retryCount w)
      = Some (Returned tt, w')
  | S k' =>
      exists e w1,
        recv receiver packet self (on_the_wire self packet receiver retryCount w)
        = Some (Thrown e, w1) /\
        returns_after k' (retryCount + 1) (after_failure self receiver e w1) w'
  end.

End Attempts.

(** A receiver that fails now and then: its [receive] draws a sample and
    throws when it is below one half. *)
Definition flaky_receive {G} {E : Engine G} (_ : addr) (_ : Packet) (_ : addr)
  : M G unit :=
  x <- draw (uniform_real 0 1) ;;
  if below x 0.5%float then throw (runtime_error "receive failed") else ret tt.

(** The lines of the retry path of [send]: a "failed to send" line, the
    "after 3 attempts" line, or a "sending" line of an attempt after the
    first. *)
Definition is_retry_line (ev : Event) : bool :=
  match ev with
  | SendFailed _ _ _ => true
  | SendGaveUp _ _ _ _ => true
  | Sending _ _ _ _ _ attempt => negb (attempt =? 1)
  | _ => false
  end.

(** The packets a [send] of the plain revision pushes on the buffer of the
    node at [a]: the packet itself at the receiver, the acknowledgement of
    a [DATA] packet at the sender. *)
Definition plain_pushed (self : addr) (p : Packet) (receiver : addr) (a : addr)
  : list Packet :=
  (if Nat.eqb a receiver then [p] else []) ++
  match type p with
  | DATA => if Nat.eqb a self then [ackPacket p] else []
  | ACK => []
  end.

(** What the buffer of the receiving node gains from packet [p] arriving
    in world [w], in the lossy revision: nothing, the packet with the
    sentinel payload, or the packet. *)
Definition kept_as {G} {E : Engine G} (p : Packet) (w : World G) : list Packet :=
  if Lossy.lost w then []
  else if Lossy.corrupted w then [Lossy.corrupt p]
  else [p].

(** The packets a [send] of the lossy revision pushes on the buffer of the
    node at [a]. *)
Definition lossy_pushed {G} {E : Engine G} (self : addr) (p : Packet)
    (receiver : addr) (w : World G) (a : addr) : list Packet :=
  let v := on_the_wire self p receiver 0 w in
  (if Nat.eqb a receiver then kept_as p v else []) ++
  (if Lossy.lost v then []
   else match type p with
        | DATA =>
            if Nat.eqb a self
            then kept_as (ackPacket p)
                         (on_the_wire receiver (ackPacket p) self 0
                                      (Lossy.arrived receiver p v))
            else []
        | ACK => []
        end).

(** ** [main]

    The statements [main] runs on the main thread: the two [send]s inside
    the inner [try], the [stop] of node B, and the exit code.  [nodeA] is
    the node at address 0 and [nodeB] the node at address 1; the generator
    seeded from [std::random_device] is the parameter [seed].  [std::cerr]
    is a stream of its own: the lines written to it are returned with the
    exit code.  The thread started on [nodeB.processPackets] is the
    [Worker] above and is not run here; the sleep and the [join] change
    nothing the main thread sees.  [send] is [Node::send] of the revision
    at hand. *)
Section Main.

Context {G : Type}.
Variable send : addr -> Packet -> addr -> M G unit.

(** The world after [Node nodeA("Node A", gen); Node nodeB("Node B", gen)]. *)
Definition main_world (seed : G) : World G :=
  {| nodes := two_nodes; gen := seed; cout := [] |}.

(** The line of the outer [catch]. *)
Definition main_error_line (e : exception) : string :=
  String.append "An error occurred in the main function: " (what e).

(** The body of [main].  The outer [catch] is written twice, once around
    the whole and once around what follows the inner [try], so that the
    lines already on [std::cerr] are kept when it is entered from
    there. *)
Definition main_body : M G (Z * list string) :=
  try_catch
    (cerr <-
       try_catch
         (send 0%nat packet1 1%nat ;;
          send 0%nat packet2 1%nat ;;
          ret [])
         (fun e => ret [String.append "Failed to send packet: " (what e)]) ;;
     try_catch
       ((* std::this_thread::sleep_for(std::chrono::seconds(1)) *)
        stop 1%nat ;;
        (* nodeBThread.join() *)
        ret (0, cerr))
       (fun e => ret (1, cerr ++ [main_error_line e])))
    (fun e => ret (1, [main_error_line e])).

(** [int main()] *)
Definition main (seed : G) : option (outcome (Z * list string) * World G) :=
  main_body (main_world seed).

End Main.

(** The quiet world with node B stopped. *)
Definition stopped_world : World Script :=
  updated 1%nat (set_running false) quiet_world.

(** * Properties *)

(** ** The store *)

Lemma upd_same (h : addr -> Node) (a : addr) (n : Node) : upd h a n a = n.
Proof. unfold upd. now rewrite Nat.eqb_refl. Qed.

Lemma upd_other (h : addr -> Node) (a b : addr) (n : Node) :
  b <> a -> upd h a n b = h b.
Proof.
  intros Hne. unfold upd.
  destruct (Nat.eqb_spec b a) as [Heq | _]; [contradiction | reflexivity].
Qed.

(** Neither [push] nor [set_running] renames a node. *)
Lemma name_upd_push (h : addr -> Node) (a b : addr) (p : Packet) :
  name (upd h a (push p (h a)) b) = name (h b).
Proof.
  unfold upd. destruct (Nat.eqb_spec b a) as [-> | _]; reflexivity.
Qed.

(** ** [stop] *)

(** C9: any number of calls of [stop] (one or more) returns without an
    exception and leaves the world exactly as one call does: the node's
    [running] flag false, every node otherwise as it was, generator and
    output untouched. *)
Theorem stop_idempotent (G : Type) (self : addr) (k : nat) (w : World G) :
  exists w',
    repeatedly (S k) (stop self) w = Some (Returned tt, w') /\
    running (nodes w' self) = false /\
    (forall a, nodes w' a = nodes (updated self (set_running false) w) a) /\
    gen w' = gen w /\ cout w' = cout w.
Proof.
  revert w. induction k as [| k IH]; intros w.
  - exists (updated self (set_running false) w). cbn.
    rewrite upd_same. auto.
  - destruct (IH (updated self (set_running false) w))
      as (w' & Hrun & Hflag & Hnodes & Hgen & Hcout).
    exists w'. split; [| split; [| split; [| split]]].
    + change (repeatedly (S (S k)) (stop self) w)
        with (repeatedly (S k) (stop self) (updated self (set_running false) w)).
      exact Hrun.
    + exact Hflag.
    + intros a. rewrite Hnodes. cbn.
      destruct (Nat.eq_dec a self) as [-> | Hne].
      * now rewrite !upd_same.
      * now rewrite !upd_other by assumption.
    + now rewrite Hgen.
    + now rewrite Hcout.
Qed.

(** ** [send] *)


Section SendFacts.

Context {G : Type} {E : Engine G}.
Variable recv : addr -> Packet -> addr -> M G unit.
Variables (self : addr) (packet : Packet) (receiver : addr).


Lemma send_loop_attempt (budget : nat) (retryCount : Z) (w : World G) :
  retryCount < MAX_RETRIES ->
  send_loop recv self packet receiver (S budget) retryCount w =
  match recv receiver packet self (on_the_wire self packet receiver retryCount w) with
  | None => None
  | Some (Returned a, w') => Some (Returned a, w')
  | Some (Thrown e, w') =>
      send_loop recv self packet receiver budget (retryCount + 1)
                (after_failure self receiver e w')
  end.
Proof.
  intros Hlt. cbn [send_loop].
  apply Z.ltb_lt in Hlt. rewrite Hlt.
  unfold network_delay, on_the_wire, after_failure.
  cbv beta iota delta [bind print draw try_catch ret].
  destruct (recv receiver packet self _) as [[[a | e] w'] |]; reflexivity.
Qed.

Lemma send_loop_exhausted (budget : nat) (retryCount : Z) (w : World G) :
  MAX_RETRIES <= retryCount ->
  send_loop recv self packet receiver budget retryCount w =
  Some (Thrown DeliveryExhausted, printed (gave_up_line self packet receiver) w).
Proof.
  intros Hge. apply Z.ltb_ge in Hge.
  destruct budget; cbn [send_loop]; rewrite Hge; reflexivity.
Qed.

(** Whatever the receiver does, the only exception that leaves the loop is
    the one thrown after it. *)
Lemma send_loop_throws_exhausted (budget : nat) :
  forall (retryCount : Z) (w w' : World G) (e : exception),
    send_loop recv self packet receiver budget retryCount w = Some (Thrown e, w') ->
    e = DeliveryExhausted.
Proof.
  induction budget as [| budget IH]; intros retryCount w w' e Hrun.
  - cbn [send_loop] in Hrun.
    destruct (retryCount <? MAX_RETRIES); [discriminate |].
    cbn in Hrun. now inversion Hrun.
  - destruct (Z.lt_ge_cases retryCount MAX_RETRIES) as [Hlt | Hge].
    + rewrite send_loop_attempt in Hrun by assumption.
      destruct (recv receiver packet self _) as [[[a | e'] w1] |];
        [discriminate | | discriminate].
      eapply IH; eassumption.
    + rewrite send_loop_exhausted in Hrun by assumption.
      now inversion Hrun.
Qed.

End SendFacts.

(** C7: against a receiver whose [receive] always returns, [send] makes one
    attempt: it writes the "sending" line of attempt 1, draws the delay,
    calls [receive] once and returns with the world [receive] left; it
    writes nothing else and does not retry. *)
Theorem send_succeeds_at_first_attempt
    {G : Type} {E : Engine G} (recv : addr -> Packet -> addr -> M G unit)
    (self : addr) (packet : Packet) (receiver : addr) (w : World G) :
  (forall w0, exists w1, recv receiver packet self w0 = Some (Returned tt, w1)) ->
  exists w1,
    cout (on_the_wire self packet receiver 0 w) =
      cout w ++ [Sending (getName self w) (type packet) (data packet)
                         (sequenceNumber packet) (getName receiver w) 1] /\
    recv receiver packet self (on_the_wire self packet receiver 0 w)
      = Some (Returned tt, w1) /\
    send_with recv self packet receiver w = Some (Returned tt, w1).
Proof.
  intros Hrecv.
  destruct (Hrecv (on_the_wire self packet receiver 0 w)) as [w1 H1].
  exists w1. split; [reflexivity | split; [exact H1 |]].
  unfold send_with. change (Z.to_nat MAX_RETRIES) with 3%nat.
  rewrite send_loop_attempt by (unfold MAX_RETRIES; lia).
  now rewrite H1.
Qed.

(** C1: against a receiver whose [receive] throws on every call, [send]
    makes exactly three attempts, each a "sending" line (attempts 1, 2, 3),
    a delay, a call of [receive] and the "failed to send" line of its
    [catch]; then it writes the "after 3 attempts" line and throws
    [DeliveryExhausted].  The lines are on [cout]: each attempt reaches
    the receiver with the "failed to send" line of the attempt before and
    its own "sending" line added to what the receiver left, and the world
    [send] throws in has the third "failed to send" line and the "after 3
    attempts" line added.  And no call of [send], against any receiver,
    throws anything else. *)
Theorem send_gives_up_after_three_attempts
    {G : Type} {E : Engine G} (recv : addr -> Packet -> addr -> M G unit)
    (self : addr) (packet : Packet) (receiver : addr) (w : World G) :
  (forall w0, exists e w1, recv receiver packet self w0 = Some (Thrown e, w1)) ->
  (exists e1 w1 e2 w2 e3 w3,
     recv receiver packet self (on_the_wire self packet receiver 0 w)
       = Some (Thrown e1, w1) /\
     recv receiver packet self
          (on_the_wire self packet receiver 1 (after_failure self receiver e1 w1))
       = Some (Thrown e2, w2) /\
     recv receiver packet self
          (on_the_wire self packet receiver 2 (after_failure self receiver e2 w2))
       = Some (Thrown e3, w3) /\
     send_with recv self packet receiver w =
       Some (Thrown DeliveryExhausted,
             printed (gave_up_line self packet receiver)
                     (after_failure self receiver e3 w3)) /\
     cout (on_the_wire self packet receiver 0 w) =
       cout w ++
       [Sending (getName self w) (type packet) (data packet)
                (sequenceNumber packet) (getName receiver w) 1] /\
     cout (on_the_wire self packet receiver 1 (after_failure self receiver e1 w1)) =
       cout w1 ++
       [SendFailed (getName self w1) (getName receiver w1) (what e1);
        Sending (getName self w1) (type packet) (data packet)
                (sequenceNumber packet) (getName receiver w1) 2] /\
     cout (on_the_wire self packet receiver 2 (after_failure self receiver e2 w2)) =
       cout w2 ++
       [SendFailed (getName self w2) (getName receiver w2) (what e2);
        Sending (getName self w2) (type packet) (data packet)
                (sequenceNumber packet) (getName receiver w2) 3] /\
     cout (printed (gave_up_line self packet receiver)
                   (after_failure self receiver e3 w3)) =
       cout w3 ++
       [SendFailed (getName self w3) (getName receiver w3) (what e3);
        SendGaveUp (getName self w3) (sequenceNumber packet)
                   (getName receiver w3) 3]) /\
  (forall (recv' : addr -> Packet -> addr -> M G unit) self' packet' receiver'
          (v v' : World G) (e : exception),
     send_with recv' self' packet' receiver' v = Some (Thrown e, v') ->
     e = DeliveryExhausted).
Proof.
  intros Hrecv. split.
  - destruct (Hrecv (on_the_wire self packet receiver 0 w)) as (e1 & w1 & H1).
    destruct (Hrecv (on_the_wire self packet receiver 1
                       (after_failure self receiver e1 w1))) as (e2 & w2 & H2).
    destruct (Hrecv (on_the_wire self packet receiver 2
                       (after_failure self receiver e2 w2))) as (e3 & w3 & H3).
    exists e1, w1, e2, w2, e3, w3.
    split; [exact H1 |]. split; [exact H2 |]. split; [exact H3 |].
    split.
    { unfold send_with. change (Z.to_nat MAX_RETRIES) with 3%nat.
      rewrite send_loop_attempt by (unfold MAX_RETRIES; lia).
      rewrite H1. change (0 + 1) with 1.
      rewrite send_loop_attempt by (unfold MAX_RETRIES; lia).
      rewrite H2. change (1 + 1) with 2.
      rewrite send_loop_attempt by (unfold MAX_RETRIES; lia).
      rewrite H3. change (2 + 1) with 3.
      apply send_loop_exhausted. unfold MAX_RETRIES. lia. }
    split; [reflexivity |].
    repeat split; cbn [cout on_the_wire after_failure printed drawn];
      rewrite <- app_assoc; reflexivity.
  - intros recv' self' packet' receiver' v v' e Hrun.
    eapply send_loop_throws_exhausted. exact Hrun.
Qed.


Lemma send_succeeds_at_first_attempt_witness :
  (forall w0 : World Script,
     exists w1, Plain.receive 1 1%nat packet1 0%nat w0 = Some (Returned tt, w1)) /\
  exists w1 : World Script,
    cout (on_the_wire 0%nat packet1 1%nat 0 (world0 [])) =
      cout (world0 []) ++
      [Sending (getName 0%nat (world0 [])) (type packet1) (data packet1)
               (sequenceNumber packet1) (getName 1%nat (world0 [])) 1] /\
    Plain.receive 1 1%nat packet1 0%nat (on_the_wire 0%nat packet1 1%nat 0 (world0 []))
      = Some (Returned tt, w1) /\
    send_with (Plain.receive 1) 0%nat packet1 1%nat (world0 []) = Some (Returned tt, w1).
Proof.
  split.
  - intros w0. eexists. reflexivity.
  - apply (send_succeeds_at_first_attempt (Plain.receive 1) 0%nat packet1 1%nat
             (world0 [])).
    intros w0. eexists. reflexivity.
Defined.

Lemma send_gives_up_after_three_attempts_witness :
  (forall w0 : World Script,
     exists e w1, failing_receive 1%nat packet1 0%nat w0 = Some (Thrown e, w1)) /\
  ((exists e1 w1 e2 w2 e3 w3,
     failing_receive 1%nat packet1 0%nat (on_the_wire 0%nat packet1 1%nat 0 (world0 []))
       = Some (Thrown e1, w1) /\
     failing_receive 1%nat packet1 0%nat
          (on_the_wire 0%nat packet1 1%nat 1 (after_failure 0%nat 1%nat e1 w1))
       = Some (Thrown e2, w2) /\
     failing_receive 1%nat packet1 0%nat
          (on_the_wire 0%nat packet1 1%nat 2 (after_failure 0%nat 1%nat e2 w2))
       = Some (Thrown e3, w3) /\
     send_with failing_receive 0%nat packet1 1%nat (world0 []) =
       Some (Thrown DeliveryExhausted,
             printed (gave_up_line 0%nat packet1 1%nat)
                     (after_failure 0%nat 1%nat e3 w3)) /\
     cout (on_the_wire 0%nat packet1 1%nat 0 (world0 [])) =
       cout (world0 []) ++
       [Sending (getName 0%nat (world0 [])) (type packet1) (data packet1)
                (sequenceNumber packet1) (getName 1%nat (world0 [])) 1] /\
     cout (on_the_wire 0%nat packet1 1%nat 1 (after_failure 0%nat 1%nat e1 w1)) =
       cout w1 ++
       [SendFailed (getName 0%nat w1) (getName 1%nat w1) (what e1);
        Sending (getName 0%nat w1) (type packet1) (data packet1)
                (sequenceNumber packet1) (getName 1%nat w1) 2] /\
     cout (on_the_wire 0%nat packet1 1%nat 2 (after_failure 0%nat 1%nat e2 w2)) =
       cout w2 ++
       [SendFailed (getName 0%nat w2) (getName 1%nat w2) (what e2);
        Sending (getName 0%nat w2) (type packet1) (data packet1)
                (sequenceNumber packet1) (getName 1%nat w2) 3] /\
     cout (printed (gave_up_line 0%nat packet1 1%nat)
                   (after_failure 0%nat 1%nat e3 w3)) =
       cout w3 ++
       [SendFailed (getName 0%nat w3) (getName 1%nat w3) (what e3);
        SendGaveUp (getName 0%nat w3) (sequenceNumber packet1)
                   (getName 1%nat w3) 3]) /\
  (forall (recv' : addr -> Packet -> addr -> M Script unit) self' packet' receiver'
          (v v' : World Script) (e : exception),
     send_with recv' self' packet' receiver' v = Some (Thrown e, v') ->
     e = DeliveryExhausted)).
Proof.
  split.
  - intros w0. eexists _, _. reflexivity.
  - apply (send_gives_up_after_three_attempts failing_receive 0%nat packet1 1%nat
             (world0 [])).
    intros w0. eexists _, _. reflexivity.
Defined.

(** The lines of a [send] that gives up, written out on the two nodes of
    [main]. *)
Example send_gives_up_lines :
  option_map (fun r => (fst r, cout (snd r)))
    (send_with failing_receive 0%nat packet1 1%nat (world0 [])) =
  Some (Thrown DeliveryExhausted,
        [Sending "Node A" DATA "Test" 1 "Node B" 1;
         SendFailed "Node A" "Node B" "receive failed";
         Sending "Node A" DATA "Test" 1 "Node B" 2;
         SendFailed "Node A" "Node B" "receive failed";
         Sending "Node A" DATA "Test" 1 "Node B" 3;
         SendFailed "Node A" "Node B" "receive failed";
         SendGaveUp "Node A" 1 "Node B" 3]).
Proof. reflexivity. Qed.

(** ** [receive] *)

Section ReceiveFacts.

Context {G : Type} {E : Engine G}.
Variable send : addr -> Packet -> addr -> M G unit.
Variables (self : addr) (packet : Packet) (sender : addr).

(** [Plain.receive_with] in one equation: enqueue, write, and the call of
    [send] is the last thing it does. *)
Lemma plain_receive_with_eq (w : World G) :
  Plain.receive_with send self packet sender w =
  match type packet with
  | DATA => send self (ackPacket packet) sender (delivered self packet w)
  | ACK => Some (Returned tt, delivered self packet w)
  end.
Proof.
  unfold Plain.receive_with, delivered.
  cbv beta iota delta [bind print on_node ret].
  destruct (type packet); reflexivity.
Qed.

(** [Lossy.receive_with] in one equation. *)
Lemma lossy_receive_with_eq (w : World G) :
  Lossy.receive_with send self packet sender w =
  if Lossy.lost w
  then Some (Returned tt,
             printed (Lossy.dropped_line self packet) (drawn (uniform_real 0 1) w))
  else
    match type packet with
    | DATA => send self (ackPacket packet) sender (Lossy.landed self packet w)
    | ACK => Some (Returned tt, Lossy.landed self packet w)
    end.
Proof.
  unfold Lossy.receive_with, Lossy.landed, Lossy.lost, Lossy.corrupted, delivered.
  cbv beta iota zeta delta [bind print on_node ret draw].
  destruct (below (fst (uniform_real 0 1 (gen w))) LOSS); [reflexivity |].
  destruct (below _ CORRUPTION); cbn [type Lossy.corrupt];
    destruct (type packet); reflexivity.
Qed.

End ReceiveFacts.

Lemma plain_receive_unfold {G : Type} {E : Engine G} (depth : nat)
    (self : addr) (packet : Packet) (sender : addr) :
  Plain.receive depth self packet sender =
  Plain.receive_with
    (fun this ack to =>
       match depth with
       | O => out_of_budget
       | S depth' => send_with (Plain.receive depth') this ack to
       end)
    self packet sender.
Proof. destruct depth; reflexivity. Qed.

Lemma lossy_receive_unfold {G : Type} {E : Engine G} (depth : nat)
    (self : addr) (packet : Packet) (sender : addr) :
  Lossy.receive depth self packet sender =
  Lossy.receive_with
    (fun this ack to =>
       match depth with
       | O => out_of_budget
       | S depth' => send_with (Lossy.receive depth') this ack to
       end)
    self packet sender.
Proof. destruct depth; reflexivity. Qed.

(** *** The program as composed: [send] calling [receive] calling [send] *)

Section Closed.

Context {G : Type} {E : Engine G}.

(** An [ACK] packet ends the recursion: [receive] returns without a nested
    call, whatever the depth budget. *)
Lemma plain_receive_ack (depth : nat) (self : addr) (p : Packet) (sender : addr)
    (w : World G) :
  type p = ACK ->
  Plain.receive depth self p sender w = Some (Returned tt, delivered self p w).
Proof.
  intros Hack. rewrite plain_receive_unfold, plain_receive_with_eq.
  now rewrite Hack.
Qed.

Lemma lossy_receive_ack (depth : nat) (self : addr) (p : Packet) (sender : addr)
    (w : World G) :
  type p = ACK ->
  Lossy.receive depth self p sender w = Some (Returned tt, Lossy.arrived self p w).
Proof.
  intros Hack. rewrite lossy_receive_unfold, lossy_receive_with_eq.
  unfold Lossy.arrived. rewrite Hack. now destruct (Lossy.lost w).
Qed.

(** Sending an [ACK] takes one attempt. *)
Lemma plain_send_ack (depth : nat) (self : addr) (p : Packet) (receiver : addr)
    (w : World G) :
  type p = ACK ->
  Plain.send depth self p receiver w =
  Some (Returned tt, delivered receiver p (on_the_wire self p receiver 0 w)).
Proof.
  intros Hack. unfold Plain.send, send_with.
  change (Z.to_nat MAX_RETRIES) with 3%nat.
  rewrite send_loop_attempt by (unfold MAX_RETRIES; lia).
  now rewrite plain_receive_ack.
Qed.

Lemma lossy_send_ack (depth : nat) (self : addr) (p : Packet) (receiver : addr)
    (w : World G) :
  type p = ACK ->
  Lossy.send depth self p receiver w =
  Some (Returned tt, Lossy.arrived receiver p (on_the_wire self p receiver 0 w)).
Proof.
  intros Hack. unfold Lossy.send, send_with.
  change (Z.to_nat MAX_RETRIES) with 3%nat.
  rewrite send_loop_attempt by (unfold MAX_RETRIES; lia).
  now rewrite lossy_receive_ack.
Qed.

Lemma arrived_kept (self : addr) (p : Packet) (w : World G) :
  Lossy.lost w = false -> Lossy.arrived self p w = Lossy.landed self p w.
Proof. intros Hkept. unfold Lossy.arrived. now rewrite Hkept. Qed.

(** One level of nesting is all [receive] uses, and it always returns. *)
Lemma plain_receive_returns (depth : nat) (self : addr) (p : Packet)
    (sender : addr) (w : World G) :
  Plain.receive (S depth) self p sender w =
  Some (Returned tt,
        match type p with
        | DATA => delivered sender (ackPacket p)
                    (on_the_wire self (ackPacket p) sender 0 (delivered self p w))
        | ACK => delivered self p w
        end).
Proof.
  rewrite plain_receive_unfold, plain_receive_with_eq.
  destruct (type p); [| reflexivity].
  now apply plain_send_ack.
Qed.

Lemma lossy_receive_returns (depth : nat) (self : addr) (p : Packet)
    (sender : addr) (w : World G) :
  Lossy.receive (S depth) self p sender w =
  Some (Returned tt,
        if Lossy.lost w then Lossy.arrived self p w
        else match type p with
             | DATA => Lossy.arrived sender (ackPacket p)
                         (on_the_wire self (ackPacket p) sender 0
                                      (Lossy.arrived self p w))
             | ACK => Lossy.arrived self p w
             end).
Proof.
  rewrite lossy_receive_unfold, lossy_receive_with_eq.
  destruct (Lossy.lost w) eqn:Hlost.
  - unfold Lossy.arrived. now rewrite Hlost.
  - rewrite (arrived_kept self p Hlost).
    destruct (type p); [| reflexivity].
    now apply lossy_send_ack.
Qed.

(** So the [catch] of [send] is never entered in the program as composed:
    every [send] returns after its first attempt. *)
Remark plain_send_returns (depth : nat) (self : addr) (p : Packet)
    (receiver : addr) (w : World G) :
  exists w', Plain.send (S depth) self p receiver w = Some (Returned tt, w').
Proof.
  unfold Plain.send, send_with. change (Z.to_nat MAX_RETRIES) with 3%nat.
  rewrite send_loop_attempt by (unfold MAX_RETRIES; lia).
  rewrite plain_receive_returns. eexists. reflexivity.
Qed.

Remark lossy_send_returns (depth : nat) (self : addr) (p : Packet)
    (receiver : addr) (w : World G) :
  exists w', Lossy.send (S depth) self p receiver w = Some (Returned tt, w').
Proof.
  unfold Lossy.send, send_with. change (Z.to_nat MAX_RETRIES) with 3%nat.
  rewrite send_loop_attempt by (unfold MAX_RETRIES; lia).
  rewrite lossy_receive_returns. eexists. reflexivity.
Qed.

(** What [receive] writes before any acknowledgement holds no "sending"
    line, and it renames no node. *)
Lemma delivered_cout (self : addr) (p : Packet) (w : World G) :
  cout (delivered self p w) =
  cout w ++ [Received (getName self w) (type p) (data p) (sequenceNumber p)].
Proof.
  unfold delivered, printed, received_line, getName, updated. cbn.
  now rewrite upd_same.
Qed.

Lemma delivered_name (self : addr) (p : Packet) (w : World G) (a : addr) :
  getName a (delivered self p w) = getName a w.
Proof. unfold getName. cbn. apply name_upd_push. Qed.

Lemma arrived_name (self : addr) (p : Packet) (w : World G) (a : addr) :
  getName a (Lossy.arrived self p w) = getName a w.
Proof.
  unfold Lossy.arrived, Lossy.landed.
  destruct (Lossy.lost w); [reflexivity |].
  destruct (Lossy.corrupted w); now rewrite delivered_name.
Qed.

Lemma arrived_cout (self : addr) (p : Packet) (w : World G) :
  exists lines,
    cout (Lossy.arrived self p w) = cout w ++ lines /\
    filter is_sending lines = [].
Proof.
  unfold Lossy.arrived, Lossy.landed.
  destruct (Lossy.lost w).
  - eexists. split; reflexivity.
  - destruct (Lossy.corrupted w); rewrite delivered_cout; cbn [cout printed drawn].
    + rewrite <- app_assoc. eexists. split; reflexivity.
    + eexists. split; reflexivity.
Qed.

End Closed.

Lemma on_the_wire_cout {G : Type} {E : Engine G} (self : addr) (p : Packet)
    (receiver : addr) (retryCount : Z) (w : World G) :
  cout (on_the_wire self p receiver retryCount w) =
  cout w ++ [Sending (getName self w) (type p) (data p) (sequenceNumber p)
                     (getName receiver w) (retryCount + 1)].
Proof. reflexivity. Qed.


(** *** Loss and corruption (the lossy revision) *)

Lemma arrived_buffer_mono {G : Type} {E : Engine G} (self : addr) (p : Packet)
    (w : World G) (a : addr) (x : Packet) :
  In x (buffer (nodes w a)) -> In x (buffer (nodes (Lossy.arrived self p w) a)).
Proof.
  intros Hin. unfold Lossy.arrived, Lossy.landed.
  destruct (Lossy.lost w); [exact Hin |].
  destruct (Lossy.corrupted w); cbn; unfold upd;
    destruct (Nat.eqb_spec a self) as [-> | _]; cbn;
    try apply in_or_app; auto.
Qed.

(** C4: when the loss sample of a call of [receive] is below [0.1], the
    call writes the "dropped" line and returns: no node changes (so no
    buffer grows), the generator has moved by that one sample, the
    "dropped" line is the only line added, and the result does not depend
    on what [send] would do, because [send] is not called.  A [send] whose
    first attempt reaches the receiver in that world returns normally with
    that result: no "failed" line, no second attempt. *)
Theorem lost_packet_is_dropped_silently {G : Type} {E : Engine G}
    (depth : nat) (self : addr) (packet : Packet) (sender : addr) (w : World G) :
  below (fst (uniform_real 0 1 (gen w))) LOSS = true ->
  exists w',
    nodes w' = nodes w /\
    gen w' = snd (uniform_real 0 1 (gen w)) /\
    cout w' = cout w ++ [Dropped (getName self w) (data packet)
                                 (sequenceNumber packet)] /\
    Lossy.receive depth self packet sender w = Some (Returned tt, w') /\
    (forall send : addr -> Packet -> addr -> M G unit,
       Lossy.receive_with send self packet sender w = Some (Returned tt, w')) /\
    (forall v : World G,
       on_the_wire sender packet self 0 v = w ->
       Lossy.send depth sender packet self v = Some (Returned tt, w')).
Proof.
  intros Hlost. change (Lossy.lost w = true) in Hlost.
  exists (printed (Lossy.dropped_line self packet) (drawn (uniform_real 0 1) w)).
  assert (Hopen : forall send : addr -> Packet -> addr -> M G unit,
            Lossy.receive_with send self packet sender w =
            Some (Returned tt, printed (Lossy.dropped_line self packet)
                                       (drawn (uniform_real 0 1) w))).
  { intros send. rewrite lossy_receive_with_eq. now rewrite Hlost. }
  assert (Hclosed : Lossy.receive depth self packet sender w =
            Some (Returned tt, printed (Lossy.dropped_line self packet)
                                       (drawn (uniform_real 0 1) w))).
  { rewrite lossy_receive_unfold. apply Hopen. }
  repeat split; try reflexivity; try assumption.
  intros v Hv. unfold Lossy.send, send_with.
  change (Z.to_nat MAX_RETRIES) with 3%nat.
  rewrite send_loop_attempt by (unfold MAX_RETRIES; lia).
  rewrite Hv. now rewrite Hclosed.
Qed.

(** C5: when a packet is not lost and the corruption sample is below
    [0.05], the packet pushed on the buffer is the original with [data]
    replaced by ["CORRUPTED"] and the same [sequenceNumber] and [type];
    the "received corrupted" and "received" lines are written for it, and
    [receive] goes on as for any packet: for [DATA] it sends the
    acknowledgement from that world.  The call returns, the corrupted
    packet is in the buffer, and for [DATA] the "sending ACK" line is
    out. *)
Theorem corrupted_packet_is_enqueued {G : Type} {E : Engine G}
    (depth : nat) (self : addr) (packet : Packet) (sender : addr) (w : World G) :
  below (fst (uniform_real 0 1 (gen w))) LOSS = false ->
  below (fst (uniform_real 0 1 (snd (uniform_real 0 1 (gen w))))) CORRUPTION = true ->
  exists enq,
    nodes enq self =
      push (mkPacket "CORRUPTED" (sequenceNumber packet) (type packet))
           (nodes w self) /\
    (forall a, a <> self -> nodes enq a = nodes w a) /\
    cout enq = cout w ++ [ReceivedCorrupted (getName self w) "CORRUPTED"
                                            (sequenceNumber packet);
                          Received (getName self w) (type packet) "CORRUPTED"
                                   (sequenceNumber packet)] /\
    Lossy.receive (S depth) self packet sender w =
      match type packet with
      | DATA => Lossy.send depth self (ackPacket packet) sender enq
      | ACK => Some (Returned tt, enq)
      end /\
    exists w',
      Lossy.receive (S depth) self packet sender w = Some (Returned tt, w') /\
      In (mkPacket "CORRUPTED" (sequenceNumber packet) (type packet))
         (buffer (nodes w' self)) /\
      (type packet = DATA ->
       In (Sending (getName self w) ACK "ACK" (sequenceNumber packet)
                   (getName sender w) 1) (cout w')).
Proof.
  intros Hkept Hcorrupt.
  set (received := mkPacket "CORRUPTED" (sequenceNumber packet) (type packet)).
  change (Lossy.lost w = false) in Hkept.
  change (Lossy.corrupted w = true) in Hcorrupt.
  assert (Hlanded : Lossy.landed self packet w =
            delivered self received
              (printed (Lossy.corrupted_line self received)
                 (drawn (uniform_real 0 1) (drawn (uniform_real 0 1) w)))).
  { unfold Lossy.landed. now rewrite Hcorrupt. }
  assert (Hin : In received (buffer (nodes (Lossy.landed self packet w) self))).
  { rewrite Hlanded. cbn. rewrite upd_same. cbn.
    apply in_or_app. right. now left. }
  exists (Lossy.landed self packet w).
  split; [| split; [| split; [| split]]].
  - rewrite Hlanded. cbn. now rewrite upd_same.
  - intros a Hne. rewrite Hlanded. cbn. now rewrite upd_other.
  - rewrite Hlanded, delivered_cout. cbn [cout printed drawn].
    now rewrite <- app_assoc.
  - rewrite lossy_receive_unfold, lossy_receive_with_eq, Hkept.
    destruct depth; reflexivity.
  - rewrite lossy_receive_returns, Hkept, (arrived_kept self packet Hkept).
    destruct (type packet) eqn:Htype.
    + eexists. split; [reflexivity |]. split.
      * now apply arrived_buffer_mono.
      * intros _.
        destruct (arrived_cout sender (ackPacket packet)
                    (on_the_wire self (ackPacket packet) sender 0
                                 (Lossy.landed self packet w))) as (l2 & Hl2 & _).
        rewrite Hl2, on_the_wire_cout.
        rewrite <- (arrived_kept self packet Hkept), !arrived_name.
        apply in_or_app. left. apply in_or_app. right. now left.
    + eexists. split; [reflexivity |]. split; [exact Hin | discriminate].
Qed.

Lemma lost_packet_is_dropped_silently_witness :
  below (fst (uniform_real 0 1 (gen losing_world))) LOSS = true /\
  exists w',
    nodes w' = nodes losing_world /\
    gen w' = snd (uniform_real 0 1 (gen losing_world)) /\
    cout w' = cout losing_world ++
              [Dropped (getName 1%nat losing_world) (data packet1)
                       (sequenceNumber packet1)] /\
    Lossy.receive 1 1%nat packet1 0%nat losing_world = Some (Returned tt, w') /\
    (forall send : addr -> Packet -> addr -> M Script unit,
       Lossy.receive_with send 1%nat packet1 0%nat losing_world
         = Some (Returned tt, w')) /\
    (forall v : World Script,
       on_the_wire 0%nat packet1 1%nat 0 v = losing_world ->
       Lossy.send 1 0%nat packet1 1%nat v = Some (Returned tt, w')).
Proof.
  split.
  - reflexivity.
  - apply (lost_packet_is_dropped_silently 1 1%nat packet1 0%nat losing_world).
    reflexivity.
Defined.

(** The lines of a [send] whose packet is lost, on the two nodes of
    [main]: one attempt, counted as delivered. *)
Example lost_packet_lines :
  option_map (fun r => (fst r, cout (snd r), buffer (nodes (snd r) 1%nat)))
    (Lossy.send 1 0%nat packet1 1%nat (world0 [0.0625%float])) =
  Some (Returned tt,
        [Sending "Node A" DATA "Test" 1 "Node B" 1; Dropped "Node B" "Test" 1],
        []).
Proof. reflexivity. Qed.

Lemma corrupted_packet_is_enqueued_witness :
  below (fst (uniform_real 0 1 (gen corrupting_world))) LOSS = false /\
  below (fst (uniform_real 0 1 (snd (uniform_real 0 1 (gen corrupting_world)))))
        CORRUPTION = true /\
  exists enq,
    nodes enq 1%nat =
      push (mkPacket "CORRUPTED" (sequenceNumber packet1) (type packet1))
           (nodes corrupting_world 1%nat) /\
    (forall a, a <> 1%nat -> nodes enq a = nodes corrupting_world a) /\
    cout enq = cout corrupting_world ++
               [ReceivedCorrupted (getName 1%nat corrupting_world) "CORRUPTED"
                                  (sequenceNumber packet1);
                Received (getName 1%nat corrupting_world) (type packet1)
                         "CORRUPTED" (sequenceNumber packet1)] /\
    Lossy.receive 1 1%nat packet1 0%nat corrupting_world =
      match type packet1 with
      | DATA => Lossy.send 0 1%nat (ackPacket packet1) 0%nat enq
      | ACK => Some (Returned tt, enq)
      end /\
    exists w',
      Lossy.receive 1 1%nat packet1 0%nat corrupting_world
        = Some (Returned tt, w') /\
      In (mkPacket "CORRUPTED" (sequenceNumber packet1) (type packet1))
         (buffer (nodes w' 1%nat)) /\
      (type packet1 = DATA ->
       In (Sending (getName 1%nat corrupting_world) ACK "ACK"
                   (sequenceNumber packet1) (getName 0%nat corrupting_world) 1)
          (cout w')).
Proof.
  split; [reflexivity | split; [reflexivity |]].
  apply (corrupted_packet_is_enqueued 0 1%nat packet1 0%nat corrupting_world);
    reflexivity.
Defined.

(** A corrupted [DATA] packet on the two nodes of [main]: enqueued with the
    sentinel payload and acknowledged under its own sequence number. *)
Example corrupted_packet_lines :
  option_map (fun r => (fst r, cout (snd r), buffer (nodes (snd r) 1%nat)))
    (Lossy.receive 1 1%nat packet1 0%nat
                   (world0 [0.5; 0.03125; 0.5; 0.5]%float)) =
  Some (Returned tt,
        [ReceivedCorrupted "Node B" "CORRUPTED" 1;
         Received "Node B" DATA "CORRUPTED" 1;
         Sending "Node B" ACK "ACK" 1 "Node A" 1;
         Received "Node A" ACK "ACK" 1],
        [mkPacket "CORRUPTED" 1 DATA]).
Proof. reflexivity. Qed.

(** *** The acknowledgement inside [receive] *)

(** C2 fails: [receive] has no [try] around [send(ackPacket, sender)].
    With a sender whose [receive] throws, the nested [send] of the [ACK]
    gives up and its exception leaves [receive], in both revisions; the
    outer [send] of the [DATA] packet takes it for a failed delivery and
    retries, so the packet is enqueued three times and the delivery is
    reported as failed. *)
Lemma ack_failure_leaves_receive :
  option_map fst
    (Plain.receive_with (send_with failing_receive) 1%nat packet1 0%nat
                        (world0 [])) = Some (Thrown DeliveryExhausted) /\
  option_map fst
    (Lossy.receive_with (send_with failing_receive) 1%nat packet1 0%nat
                        (world0 [0.5%float; 0.5%float]))
    = Some (Thrown DeliveryExhausted) /\
  option_map (fun r => (fst r, buffer (nodes (snd r) 1%nat)))
    (send_with (Plain.receive_with (send_with failing_receive))
               0%nat packet1 1%nat (world0 []))
    = Some (Thrown DeliveryExhausted, [packet1; packet1; packet1]).
Proof. repeat split; reflexivity. Qed.

(** C2, amended: [receive] does not catch.  It throws exactly when its
    nested [send] of the acknowledgement throws (a [DATA] packet, not
    dropped), with that exception and the world that [send] left: the
    packet is already enqueued and its "received" line written.  It throws
    nothing of its own; and in the program as composed the nested [send]
    never throws, so [receive] always returns. *)
Theorem ack_failure_propagates {G : Type} {E : Engine G}
    (send : addr -> Packet -> addr -> M G unit)
    (self : addr) (packet : Packet) (sender : addr) (w w' : World G)
    (e : exception) :
  (Plain.receive_with send self packet sender w = Some (Thrown e, w') <->
   type packet = DATA /\
   send self (ackPacket packet) sender (delivered self packet w)
     = Some (Thrown e, w')) /\
  (Lossy.receive_with send self packet sender w = Some (Thrown e, w') <->
   Lossy.lost w = false /\ type packet = DATA /\
   send self (ackPacket packet) sender (Lossy.landed self packet w)
     = Some (Thrown e, w')) /\
  (forall depth, exists v,
     Plain.receive (S depth) self packet sender w = Some (Returned tt, v)) /\
  (forall depth, exists v,
     Lossy.receive (S depth) self packet sender w = Some (Returned tt, v)).
Proof.
  split; [| split; [| split]].
  - rewrite plain_receive_with_eq. destruct (type packet).
    + split; [intros H; now split | intros [_ H]; exact H].
    + split; [discriminate | intros [H _]; discriminate].
  - rewrite lossy_receive_with_eq. destruct (Lossy.lost w).
    + split; [discriminate | intros [H _]; discriminate].
    + destruct (type packet).
      * split; [intros H; now repeat split | intros (_ & _ & H); exact H].
      * split; [discriminate | intros (_ & H & _); discriminate].
  - intros depth. rewrite plain_receive_returns. eexists. reflexivity.
  - intros depth. rewrite lossy_receive_returns. eexists. reflexivity.
Qed.

(** *** The two revisions of [receive] *)

Section Views.

Context {G : Type} {E : Engine G}.

Lemma same_view_delivered (a : addr) (p : Packet) (w1 w2 : World G) :
  same_view w1 w2 -> same_view (delivered a p w1) (delivered a p w2).
Proof.
  intros [Hnodes Hcout]. unfold same_view, delivered, printed, updated,
    received_line, getName. cbn. rewrite Hnodes, Hcout. split; reflexivity.
Qed.

Lemma same_view_on_the_wire (self : addr) (p : Packet) (receiver : addr)
    (retryCount : Z) (w1 w2 : World G) :
  same_view w1 w2 ->
  same_view (on_the_wire self p receiver retryCount w1)
            (on_the_wire self p receiver retryCount w2).
Proof.
  intros [Hnodes Hcout]. unfold same_view, on_the_wire, printed, drawn,
    sending_line, getName. cbn. rewrite Hnodes, Hcout. split; reflexivity.
Qed.

Lemma same_view_trans (w1 w2 w3 : World G) :
  same_view w1 w2 -> same_view w2 w3 -> same_view w1 w3.
Proof. intros [H1 H2] [H3 H4]. split; congruence. Qed.

Lemma same_view_two_draws (w : World G) :
  same_view w (drawn (uniform_real 0 1) (drawn (uniform_real 0 1) w)).
Proof. split; reflexivity. Qed.

(** A packet neither lost nor corrupted lands as in the plain revision. *)
Lemma landed_intact (self : addr) (p : Packet) (w : World G) :
  Lossy.corrupted w = false ->
  Lossy.landed self p w =
  delivered self p (drawn (uniform_real 0 1) (drawn (uniform_real 0 1) w)).
Proof. intros Hintact. unfold Lossy.landed. now rewrite Hintact. Qed.

End Views.

(** C10 fails: started in the same world on the same packet, the two
    revisions part as soon as a sample falls below its threshold.  With a
    loss sample of 1/16 the lossy [receive] writes "dropped" and enqueues
    nothing, while the [receive] of [src/main.cpp] enqueues the packet and
    acknowledges it; with a corruption sample of 1/32 the lossy [receive]
    enqueues the sentinel payload, the other one the original. *)
Lemma revisions_differ_under_loss :
  option_map (fun r => (cout (snd r), buffer (nodes (snd r) 1%nat)))
    (Plain.receive 1 1%nat packet1 0%nat (world0 [0.0625%float])) =
  Some ([Received "Node B" DATA "Test" 1;
         Sending "Node B" ACK "ACK" 1 "Node A" 1;
         Received "Node A" ACK "ACK" 1],
        [packet1]) /\
  option_map (fun r => (cout (snd r), buffer (nodes (snd r) 1%nat)))
    (Lossy.receive 1 1%nat packet1 0%nat (world0 [0.0625%float])) =
  Some ([Dropped "Node B" "Test" 1], []) /\
  option_map (fun r => buffer (nodes (snd r) 1%nat))
    (Plain.receive 1 1%nat packet1 0%nat
                   (world0 [0.5; 0.03125; 0.5; 0.5]%float)) =
  Some [packet1] /\
  option_map (fun r => buffer (nodes (snd r) 1%nat))
    (Lossy.receive 1 1%nat packet1 0%nat
                   (world0 [0.5; 0.03125; 0.5; 0.5]%float)) =
  Some [mkPacket "CORRUPTED" 1 DATA].
Proof. repeat split; reflexivity. Qed.

(** C10, amended: on a call whose loss sample is not below [0.1] and whose
    corruption sample is not below [0.05], the lossy [receive] does what
    the [receive] of [src/main.cpp] does from the world with the generator
    two samples further: same packet enqueued, same "received" line, same
    call of [send] for the acknowledgement.  If the samples of the
    acknowledgement's own [receive] are not below their thresholds either,
    the two programs, started in the same world, return with the same
    nodes and the same output; only the generator differs. *)
Theorem revisions_agree_without_loss_or_corruption {G : Type} {E : Engine G}
    (depth : nat) (self : addr) (packet : Packet) (sender : addr) (w : World G) :
  below (fst (uniform_real 0 1 (gen w))) LOSS = false ->
  below (fst (uniform_real 0 1 (snd (uniform_real 0 1 (gen w))))) CORRUPTION = false ->
  (forall send : addr -> Packet -> addr -> M G unit,
     Lossy.receive_with send self packet sender w =
     Plain.receive_with send self packet sender
       (drawn (uniform_real 0 1) (drawn (uniform_real 0 1) w))) /\
  (Lossy.lost (on_the_wire self (ackPacket packet) sender 0
                 (Lossy.landed self packet w)) = false ->
   Lossy.corrupted (on_the_wire self (ackPacket packet) sender 0
                      (Lossy.landed self packet w)) = false ->
   exists w1 w2,
     Plain.receive (S depth) self packet sender w = Some (Returned tt, w1) /\
     Lossy.receive (S depth) self packet sender w = Some (Returned tt, w2) /\
     same_view w1 w2).
Proof.
  intros Hkept Hintact.
  change (Lossy.lost w = false) in Hkept.
  change (Lossy.corrupted w = false) in Hintact.
  split.
  - intros send.
    rewrite lossy_receive_with_eq, plain_receive_with_eq, Hkept.
    now rewrite (landed_intact self packet Hintact).
  - intros Hkept' Hintact'.
    rewrite plain_receive_returns, lossy_receive_returns, Hkept.
    rewrite (arrived_kept self packet Hkept).
    assert (Hview : same_view (delivered self packet w)
                              (Lossy.landed self packet w)).
    { rewrite (landed_intact self packet Hintact).
      apply same_view_delivered, same_view_two_draws. }
    destruct (type packet).
    + eexists _, _. split; [reflexivity | split; [reflexivity |]].
      rewrite (arrived_kept sender (ackPacket packet) Hkept').
      rewrite (landed_intact sender (ackPacket packet) Hintact').
      apply same_view_delivered.
      eapply same_view_trans; [| apply same_view_two_draws].
      now apply same_view_on_the_wire.
    + eexists _, _. split; [reflexivity | split; [reflexivity |]].
      exact Hview.
Qed.

Lemma revisions_agree_without_loss_or_corruption_witness :
  below (fst (uniform_real 0 1 (gen quiet_world))) LOSS = false /\
  below (fst (uniform_real 0 1 (snd (uniform_real 0 1 (gen quiet_world)))))
        CORRUPTION = false /\
  (forall send : addr -> Packet -> addr -> M Script unit,
     Lossy.receive_with send 1%nat packet1 0%nat quiet_world =
     Plain.receive_with send 1%nat packet1 0%nat
       (drawn (uniform_real 0 1) (drawn (uniform_real 0 1) quiet_world))) /\
  (Lossy.lost (on_the_wire 1%nat (ackPacket packet1) 0%nat 0
                 (Lossy.landed 1%nat packet1 quiet_world)) = false ->
   Lossy.corrupted (on_the_wire 1%nat (ackPacket packet1) 0%nat 0
                      (Lossy.landed 1%nat packet1 quiet_world)) = false ->
   exists w1 w2,
     Plain.receive 1 1%nat packet1 0%nat quiet_world = Some (Returned tt, w1) /\
     Lossy.receive 1 1%nat packet1 0%nat quiet_world = Some (Returned tt, w2) /\
     same_view w1 w2).
Proof.
  split; [reflexivity | split; [reflexivity |]].
  apply (revisions_agree_without_loss_or_corruption 0 1%nat packet1 0%nat
           quiet_world); reflexivity.
Defined.

(** The demonstration of [main] on a quiet world, in both revisions: the
    lines of the first [send]. *)
Example quiet_send_lines :
  option_map (fun r => (fst r, cout (snd r)))
    (Plain.send 1 0%nat packet1 1%nat quiet_world) =
  Some (Returned tt,
        [Sending "Node A" DATA "Test" 1 "Node B" 1;
         Received "Node B" DATA "Test" 1;
         Sending "Node B" ACK "ACK" 1 "Node A" 1;
         Received "Node A" ACK "ACK" 1]) /\
  option_map (fun r => (fst r, cout (snd r)))
    (Lossy.send 1 0%nat packet1 1%nat quiet_world) =
  option_map (fun r => (fst r, cout (snd r)))
    (Plain.send 1 0%nat packet1 1%nat quiet_world).
Proof. split; reflexivity. Qed.

(** ** [processPackets] *)

Module WorkerFacts.
Import Worker.

Lemma start_stopped_if_exited (n : Node) : stopped_if_exited (start n).
Proof. unfold stopped_if_exited. cbn. discriminate. Qed.

Ltac crunch_step :=
  repeat match goal with
         | H : context [if ?b then _ else _] |- _ => destruct b eqn:?
         | H : context [match ?l with [] => _ | _ :: _ => _ end] |- _ =>
             destruct l eqn:?
         | H : Some _ = Some _ |- _ => inversion H; subst; clear H
         | H : None = Some _ |- _ => discriminate H
         end.

Lemma step_stopped_if_exited (a : action) (s s' : state) :
  stopped_if_exited s -> step a s = Some s' -> stopped_if_exited s'.
Proof.
  unfold stopped_if_exited. intros Hinv Hstep.
  destruct s as [n l lk o]. destruct a; cbn in Hstep.
  - unfold run_thread in Hstep. cbn in Hstep.
    destruct l; crunch_step; cbn in *; intros; try discriminate; auto.
    now apply negb_true_iff.
  - destruct l; cbn in Hstep; crunch_step; cbn; intros; discriminate.
  - crunch_step. cbn in *. exact Hinv.
  - crunch_step. cbn. reflexivity.
Qed.

Lemma run_stopped_if_exited (trace : list action) :
  forall s s', stopped_if_exited s -> run trace s = Some s' -> stopped_if_exited s'.
Proof.
  induction trace as [| a trace IH]; intros s s' Hinv Hrun; cbn in Hrun.
  - now inversion Hrun; subst.
  - destruct (step a s) as [s1 |] eqn:Hstep; [| discriminate].
    eapply IH; [| exact Hrun].
    eapply step_stopped_if_exited; eassumption.
Qed.

(** C3 fails: the loop tests [running] before it looks at the buffer, at
    the loop head and again after the wait ([if (!running) break]).  Here
    the thread is blocked in the wait when [receive] enqueues a packet and
    [stop] clears the flag; it wakes, sees the flag, breaks and writes
    "stopping": the buffer still holds the packet and no "processing" line
    was written for it. *)
Lemma stop_leaves_packet_unprocessed :
  run [Run; Run; Run; Enqueue packet1; Halt; Run; Run; Run; Run]
      (start (newNode "Node B")) =
  Some {| node := {| name := "Node B"; buffer := [packet1]; running := false |};
          at_pc := Done;
          locked := false;
          out := [Stopping "Node B"] |}.
Proof. reflexivity. Qed.

(** C3, amended: whatever the other threads do, the thread is past the loop
    only with the [running] flag false.  The buffer plays no part in
    leaving: at the loop head and at the [break] test, a false flag takes
    the thread to the "stopping" line with the buffer as it is. *)
Theorem loop_exits_only_when_stopped (n : Node) (trace : list action) (s : state) :
  run trace (start n) = Some s ->
  (exited (at_pc s) = true -> running (node s) = false) /\
  (running (node s) = false ->
   at_pc s = AtWhile \/ at_pc s = AtBreak ->
   exists s',
     step Run s = Some s' /\ at_pc s' = AtStopping /\
     node s' = node s /\ out s' = out s).
Proof.
  intros Hrun. split.
  - eapply run_stopped_if_exited; [apply (@start_stopped_if_exited n) | exact Hrun].
  - intros Hflag Hat. destruct s as [m l lk o]. cbn in *.
    destruct Hat as [-> | ->]; unfold run_thread; cbn; rewrite Hflag; cbn;
      eexists; repeat split.
Qed.

Lemma loop_exits_only_when_stopped_witness :
  run [Run; Run; Run; Enqueue packet1; Halt; Run; Run]
      (start (newNode "Node B")) = Some woken_state /\
  (exited (at_pc woken_state) = true -> running (node woken_state) = false) /\
  (running (node woken_state) = false ->
   at_pc woken_state = AtWhile \/ at_pc woken_state = AtBreak ->
   exists s',
     step Run woken_state = Some s' /\ at_pc s' = AtStopping /\
     node s' = node woken_state /\ out s' = out woken_state).
Proof.
  split; [reflexivity |].
  apply (@loop_exits_only_when_stopped (newNode "Node B")
           [Run; Run; Run; Enqueue packet1; Halt; Run; Run] woken_state).
  reflexivity.
Defined.

(** C8 fails: after an error that is not fatal the loop does not always
    go on to the next packet.  The handler returns to [while (running)];
    if [stop] was called while the packet was being printed, the test
    fails and the thread writes "stopping" with the next packet still
    queued.  Here node B's thread has popped [packet1], [packet2] is
    queued and the node is stopped: when the print throws, the thread
    returns without a line for [packet2]; on the same schedule without the
    error, the inner loop goes on and [packet2] is processed. *)
Lemma error_after_stop_ends_the_loop :
  run [Run; Run; Run; Enqueue packet1; Enqueue packet2; Run; Run; Run; Run;
       Halt; Raise (runtime_error "bad packet"); Run; Run]
      (start (newNode "Node B")) =
  Some {| node := {| name := "Node B"; buffer := [packet2]; running := false |};
          at_pc := Done;
          locked := false;
          out := [ProcessingError "Node B" "bad packet"; Stopping "Node B"] |} /\
  run [Run; Run; Run; Enqueue packet1; Enqueue packet2; Run; Run; Run; Run;
       Halt; Run; Run; Run; Run]
      (start (newNode "Node B")) =
  Some {| node := {| name := "Node B"; buffer := []; running := false |};
          at_pc := AtRelock;
          locked := false;
          out := [Processing "Node B" "Test" 1; Processing "Node B" "Packet" 2] |}.
Proof. split; reflexivity. Qed.

(** C8, amended: an exception thrown anywhere inside the [try] block is
    caught: the mutex is released, the "encountered an error" line is
    written with its message, the buffer is untouched and the thread is
    back at the loop test.  If the message is ["Fatal error"] the handler
    has cleared [running], and the next two steps of the thread write
    "stopping" and return, whatever is queued.  Otherwise the flag is as it
    was, and what follows depends on it: with the flag still set and a
    packet queued, the thread goes round the loop and prints that packet
    next, and with nothing queued it waits; with the flag cleared by a
    [stop] in the meantime, the next two steps write "stopping" and
    return, the queued packets left unprocessed. *)
Theorem processing_error_is_caught (s : state) (e : exception) :
  in_try (at_pc s) = true ->
  exists s',
    step (Raise e) s = Some s' /\
    at_pc s' = AtWhile /\ locked s' = false /\
    out s' = out s ++ [ProcessingError (name (node s)) (what e)] /\
    buffer (node s') = buffer (node s) /\
    name (node s') = name (node s) /\
    (what e = "Fatal error" ->
     running (node s') = false /\
     run [Run; Run] s' =
       Some (goto Done (say (Stopping (name (node s))) s'))) /\
    (what e <> "Fatal error" ->
     running (node s') = running (node s) /\
     (running (node s) = true ->
      (forall packet rest,
         buffer (node s) = packet :: rest ->
         exists s'',
           run [Run; Run; Run; Run; Run; Run] s' = Some s'' /\
           out s'' = out s' ++ [Processing (name (node s)) (data packet)
                                           (sequenceNumber packet)] /\
           buffer (node s'') = rest /\ at_pc s'' = AtRelock) /\
      (buffer (node s) = [] ->
       exists s'',
         run [Run; Run; Run] s' = Some s'' /\
         at_pc s'' = Waiting /\ locked s'' = false /\ out s'' = out s')) /\
     (running (node s) = false ->
      run [Run; Run] s' =
        Some (goto Done (say (Stopping (name (node s))) s')))).
Proof.
  intros Htry. destruct s as [[nm buf rn] l lk o]. cbn in Htry.
  unfold step. cbn [at_pc]. rewrite Htry. unfold handler. cbn.
  destruct (String.eqb_spec (what e) "Fatal error") as [Hfatal | Hother].
  - eexists. split; [reflexivity |]. cbn.
    do 5 (split; [reflexivity |]). split.
    + intros _. split; reflexivity.
    + intros Hne. contradiction.
  - eexists. split; [reflexivity |]. cbn.
    do 5 (split; [reflexivity |]). split.
    + intros Hfatal. contradiction.
    + intros _. split; [reflexivity |]. split.
      * intros ->. split.
        -- intros packet rest ->. eexists. cbn.
           split; [reflexivity |]. cbn. repeat split.
        -- intros ->. eexists. cbn.
           split; [reflexivity |]. cbn. repeat split.
      * intros ->. reflexivity.
Qed.

Lemma processing_error_is_caught_witness :
  in_try (at_pc printing_state) = true /\
  exists s',
    step (Raise (runtime_error "bad packet")) printing_state = Some s' /\
    at_pc s' = AtWhile /\ locked s' = false /\
    out s' = out printing_state ++ [ProcessingError (name (node printing_state)) (what (runtime_error "bad packet"))] /\
    buffer (node s') = buffer (node printing_state) /\
    name (node s') = name (node printing_state) /\
    (what (runtime_error "bad packet") = "Fatal error" ->
     running (node s') = false /\
     run [Run; Run] s' =
       Some (goto Done (say (Stopping (name (node printing_state))) s'))) /\
    (what (runtime_error "bad packet") <> "Fatal error" ->
     running (node s') = running (node printing_state) /\
     (running (node printing_state) = true ->
      (forall packet rest,
         buffer (node printing_state) = packet :: rest ->
         exists s'',
           run [Run; Run; Run; Run; Run; Run] s' = Some s'' /\
           out s'' = out s' ++ [Processing (name (node printing_state)) (data packet)
                                           (sequenceNumber packet)] /\
           buffer (node s'') = rest /\ at_pc s'' = AtRelock) /\
      (buffer (node printing_state) = [] ->
       exists s'',
         run [Run; Run; Run] s' = Some s'' /\
         at_pc s'' = Waiting /\ locked s'' = false /\ out s'' = out s')) /\
     (running (node printing_state) = false ->
      run [Run; Run] s' =
        Some (goto Done (say (Stopping (name (node printing_state))) s')))).
Proof.
  split; [reflexivity |].
  apply (processing_error_is_caught printing_state (runtime_error "bad packet")).
  reflexivity.
Defined.

(** The two kinds of error on node B: after an ordinary one the queued
    packet is processed; after the fatal one the thread stops with the
    packet still queued. *)
Example error_then_next_packet :
  option_map (fun s => (out s, buffer (node s), at_pc s))
    (run [Raise (runtime_error "bad packet"); Run; Run; Run; Run; Run; Run]
         printing_state) =
  Some ([ProcessingError "Node B" "bad packet"; Processing "Node B" "Packet" 2],
        [], AtRelock) /\
  option_map (fun s => (out s, buffer (node s), at_pc s))
    (run [Raise (runtime_error "Fatal error"); Run; Run] printing_state) =
  Some ([ProcessingError "Node B" "Fatal error"; Stopping "Node B"],
        [packet2], Done).
Proof. split; reflexivity. Qed.

End WorkerFacts.

(** * Further properties of [processPackets] *)

Module WorkerLaws.
Import Worker Bookkeeping.

Lemma run_app (t1 t2 : list action) (s : state) :
  run (t1 ++ t2) s =
  match run t1 s with
  | Some s1 => run t2 s1
  | None => None
  end.
Proof.
  revert s. induction t1 as [| a t1 IH]; intros s; cbn.
  - reflexivity.
  - destruct (step a s) as [s1 |]; [apply IH | reflexivity].
Qed.

Ltac crunch :=
  repeat match goal with
         | H : context [if ?b then _ else _] |- _ => destruct b eqn:?
         | H : context [match ?l with [] => _ | _ :: _ => _ end] |- _ =>
             destruct l eqn:?
         | H : Some _ = Some _ |- _ => inversion H; subst; clear H
         | H : None = Some _ |- _ => discriminate H
         end.

(** One step without a throw keeps the node's name and moves the ledger on
    by what was enqueued. *)
Lemma step_ledger (a : action) (s s' : state) :
  no_raise [a] = true ->
  step a s = Some s' ->
  name (node s') = name (node s) /\
  ledger (name (node s)) s' =
    ledger (name (node s)) s ++
    map (processing_line (name (node s))) (enqueued [a]).
Proof.
  intros Hquiet Hstep.
  destruct s as [[nm buf rn] l lk o]. destruct a; cbn in Hstep.
  - unfold run_thread in Hstep. cbn in Hstep.
    destruct l; crunch; unfold ledger; cbn;
      rewrite ?app_nil_r, ?filter_app; cbn; rewrite ?app_nil_r;
      try (split; reflexivity).
    split; [reflexivity |]. now rewrite <- app_assoc.
  - discriminate Hquiet.
  - crunch. unfold ledger. cbn. split; [reflexivity |].
    now rewrite !map_app, !app_assoc.
  - crunch. unfold ledger. cbn. now rewrite app_nil_r.
Qed.

Lemma run_ledger (trace : list action) :
  forall s s',
    no_raise trace = true ->
    run trace s = Some s' ->
    name (node s') = name (node s) /\
    ledger (name (node s)) s' =
      ledger (name (node s)) s ++
      map (processing_line (name (node s))) (enqueued trace).
Proof.
  induction trace as [| a trace IH]; intros s s' Hquiet Hrun; cbn in Hrun.
  - inversion Hrun; subst. cbn. now rewrite app_nil_r.
  - destruct (step a s) as [s1 |] eqn:Hstep; [| discriminate].
    assert (Ha : no_raise [a] = true) by (destruct a; auto; discriminate).
    assert (Ht : no_raise trace = true) by (destruct a; auto; discriminate).
    destruct (step_ledger a s Ha Hstep) as [Hname1 Hled1].
    destruct (IH s1 s' Ht Hrun) as [Hname Hled].
    rewrite Hname1 in Hname, Hled. split; [exact Hname |].
    rewrite Hled, Hled1, <- app_assoc, <- map_app.
    destruct a; reflexivity.
Qed.

(** X1: the loop is first in, first out and loses nothing.  Along any
    interleaving in which nothing throws, the "is processing" lines
    written so far, followed by the lines of the packet in hand and of the
    packets still queued, are exactly the lines of the packets the node
    started with and the packets enqueued since, in that order. *)
Theorem processing_is_fifo (n : Node) (trace : list action) (s : state) :
  no_raise trace = true ->
  run trace (start n) = Some s ->
  filter is_processing (out s) ++
  map (processing_line (name n)) (in_flight (at_pc s) ++ buffer (node s)) =
  map (processing_line (name n)) (buffer n ++ enqueued trace).
Proof.
  intros Hquiet Hrun.
  destruct (run_ledger trace (start n) Hquiet Hrun) as [_ Hled].
  cbn [start node] in Hled. unfold ledger in Hled at 1 2. cbn in Hled.
  rewrite Hled. now rewrite map_app.
Qed.

Lemma step_lock (a : action) (s s' : state) :
  locked s = owns (at_pc s) -> step a s = Some s' ->
  locked s' = owns (at_pc s').
Proof.
  intros Hinv Hstep. destruct s as [n l lk o]. destruct a; cbn in Hstep.
  - unfold run_thread in Hstep. cbn in Hstep.
    destruct l; crunch; cbn in *; auto.
  - destruct l; cbn in Hstep; crunch; unfold handler; cbn;
      destruct (String.eqb _ _); reflexivity.
  - crunch. exact Hinv.
  - crunch. exact Hinv.
Qed.

Lemma run_lock (trace : list action) :
  forall s s',
    locked s = owns (at_pc s) -> run trace s = Some s' ->
    locked s' = owns (at_pc s').
Proof.
  induction trace as [| a trace IH]; intros s s' Hinv Hrun; cbn in Hrun.
  - now inversion Hrun; subst.
  - destruct (step a s) as [s1 |] eqn:Hstep; [| discriminate].
    eapply IH; [| exact Hrun]. eapply step_lock; eassumption.
Qed.

(** X2: the mutex discipline.  In every state the thread can reach, under
    any interleaving and any exceptions, it owns [bufferMutex] exactly at
    the wait test, the [break] test and the queue test.  So it never holds
    the mutex while it prints or after it has left the loop, and a
    [receive] or [stop] of another thread can enter its critical section
    exactly when the thread is elsewhere. *)
Theorem mutex_discipline (n : Node) (trace : list action) (s : state) :
  run trace (start n) = Some s ->
  locked s = owns (at_pc s) /\
  (forall packet, at_pc s = AtPrint packet -> locked s = false) /\
  (exited (at_pc s) = true -> locked s = false) /\
  (forall packet, step (Enqueue packet) s <> None <-> owns (at_pc s) = false) /\
  (step Halt s <> None <-> owns (at_pc s) = false).
Proof.
  intros Hrun.
  assert (Hlock : locked s = owns (at_pc s)).
  { eapply run_lock; [| exact Hrun]. reflexivity. }
  split; [exact Hlock |]. repeat split.
  - intros packet Hat. rewrite Hlock, Hat. reflexivity.
  - intros Hexit. rewrite Hlock. destruct (at_pc s); try discriminate; reflexivity.
  - intros Hstep. rewrite <- Hlock. cbn in Hstep.
    destruct (locked s); [now contradiction Hstep | reflexivity].
  - intros Hfree. cbn. rewrite Hlock, Hfree. discriminate.
  - intros Hstep. rewrite <- Hlock. cbn in Hstep.
    destruct (locked s); [now contradiction Hstep | reflexivity].
  - intros Hfree. cbn. rewrite Hlock, Hfree. discriminate.
Qed.

Lemma step_name_running (a : action) (s s' : state) :
  step a s = Some s' ->
  name (node s') = name (node s) /\
  (running (node s) = false -> running (node s') = false).
Proof.
  intros Hstep. destruct s as [[nm buf rn] l lk o]. destruct a; cbn in Hstep.
  - unfold run_thread in Hstep. cbn in Hstep.
    destruct l; crunch; cbn; auto.
  - destruct l; cbn in Hstep; crunch; unfold handler; cbn;
      destruct (String.eqb _ _); cbn; auto.
  - crunch. cbn. auto.
  - crunch. cbn. auto.
Qed.

(** X6: nothing restarts or renames a node.  Along any trace the node keeps
    its name, and once [running] is false it stays false: no statement of
    the thread and no call of [receive] or [stop] sets it back. *)
Theorem stopped_node_stays_stopped (trace : list action) (s s' : state) :
  run trace s = Some s' ->
  name (node s') = name (node s) /\
  (running (node s) = false -> running (node s') = false).
Proof.
  revert s. induction trace as [| a trace IH]; intros s Hrun; cbn in Hrun.
  - inversion Hrun; subst. auto.
  - destruct (step a s) as [s1 |] eqn:Hstep; [| discriminate].
    destruct (step_name_running a s Hstep) as [Hname1 Hrun1].
    destruct (IH s1 Hrun) as [Hname Hflag].
    split; [congruence | auto].
Qed.

Lemma step_stopping_once (who : string) (a : action) (s s' : state) :
  name (node s) = who ->
  stopping_once who s -> step a s = Some s' -> stopping_once who s'.
Proof.
  intros Hname Hinv Hstep. unfold stopping_once in *.
  destruct s as [[nm buf rn] l lk o]. cbn in Hname. subst nm.
  destruct a; cbn in Hstep.
  - unfold run_thread in Hstep. cbn in Hstep.
    destruct l; crunch; cbn in *; auto.
    + rewrite filter_app, Hinv. reflexivity.
    + exists o. auto.
  - destruct l; cbn in Hstep; crunch; unfold handler; cbn in *;
      destruct (String.eqb _ _); cbn; rewrite filter_app, Hinv; reflexivity.
  - crunch. exact Hinv.
  - crunch. exact Hinv.
Qed.

Lemma run_stopping_once (who : string) (trace : list action) :
  forall s s',
    name (node s) = who ->
    stopping_once who s -> run trace s = Some s' -> stopping_once who s'.
Proof.
  induction trace as [| a trace IH]; intros s s' Hname Hinv Hrun; cbn in Hrun.
  - now inversion Hrun; subst.
  - destruct (step a s) as [s1 |] eqn:Hstep; [| discriminate].
    apply (IH s1 s'); [| | exact Hrun].
    + destruct (step_name_running a s Hstep) as [Hname1 _]. congruence.
    + eapply step_stopping_once; eassumption.
Qed.

(** X3: the "is stopping" line is written once, last.  In every reachable
    state of a thread that has not returned there is no such line in its
    output; when it has returned, the line is the last one and the only
    one, and the thread takes no further step and throws nothing. *)
Theorem stopping_line_is_written_once_and_last
    (n : Node) (trace : list action) (s : state) :
  run trace (start n) = Some s ->
  (at_pc s <> Done -> filter is_stopping (out s) = []) /\
  (at_pc s = Done ->
   (exists lines,
      out s = lines ++ [Stopping (name n)] /\ filter is_stopping lines = []) /\
   step Run s = None /\ forall e, step (Raise e) s = None).
Proof.
  intros Hrun.
  assert (Hinv : stopping_once (name n) s).
  { eapply run_stopping_once; [| | exact Hrun]; reflexivity. }
  unfold stopping_once in Hinv. split.
  - intros Hat. destruct (at_pc s); try exact Hinv. now contradiction Hat.
  - intros Hat. rewrite Hat in Hinv. split; [exact Hinv |].
    unfold step, run_thread. rewrite Hat. split; reflexivity.
Qed.

Lemma step_accounted (a : action) (s s' : state) :
  step a s = Some s' ->
  (accounted s' <= accounted s + List.length (enqueued [a]))%nat /\
  (accounted s + List.length (enqueued [a]) + reported s
   <= accounted s' + reported s')%nat.
Proof.
  intros Hstep. destruct s as [[nm buf rn] l lk o].
  unfold accounted, reported. destruct a; cbn in Hstep.
  - unfold run_thread in Hstep. cbn in Hstep.
    destruct l; crunch; cbn; rewrite ?filter_app, ?length_app; cbn; lia.
  - destruct l; cbn in Hstep; crunch; unfold handler; cbn;
      destruct (String.eqb _ _); cbn; rewrite ?filter_app, ?length_app;
      cbn; lia.
  - crunch. cbn. rewrite length_app. cbn. lia.
  - crunch. cbn. lia.
Qed.

(** X7: what an exception costs.  Along any interleaving, with statements
    throwing anywhere in the [try] block, no packet is ever counted twice,
    and the packets no longer accounted for (neither printed, nor in hand,
    nor queued) are at most as many as the "encountered an error" lines
    written: an exception drops at most the one packet that was popped and
    not yet printed, and never without a report. *)
Theorem each_error_drops_at_most_one_packet
    (n : Node) (trace : list action) (s : state) :
  run trace (start n) = Some s ->
  (accounted s <= List.length (buffer n) + List.length (enqueued trace))%nat /\
  (List.length (buffer n) + List.length (enqueued trace)
   <= accounted s + reported s)%nat.
Proof.
  intros Hrun.
  assert (Hgen : forall t s0 s1,
            run t s0 = Some s1 ->
            (accounted s1 <= accounted s0 + List.length (enqueued t))%nat /\
            (accounted s0 + List.length (enqueued t) + reported s0
             <= accounted s1 + reported s1)%nat).
  { induction t as [| a t IH]; intros s0 s1 Hr; cbn in Hr.
    - inversion Hr; subst. cbn. lia.
    - destruct (step a s0) as [s2 |] eqn:Hstep; [| discriminate].
      destruct (step_accounted a s0 Hstep) as [Hup1 Hlow1].
      destruct (IH s2 s1 Hr) as [Hup Hlow].
      assert (Hlen : List.length (enqueued (a :: t)) =
                     (List.length (enqueued [a]) + List.length (enqueued t))%nat)
        by (destruct a; reflexivity).
      rewrite Hlen. lia. }
  destruct (Hgen trace (start n) s Hrun) as [Hup Hlow].
  unfold accounted at 2 in Hup. unfold accounted at 1, reported at 1 in Hlow.
  cbn in Hup, Hlow. lia.
Qed.

(** One round of the inner loop: pop, print, relock. *)
Lemma drain_one (p : Packet) (q : list Packet) (nm : string) (rn lk : bool)
    (o : list Event) (t : list action) :
  run (Run :: Run :: Run :: t)
      {| node := {| name := nm; buffer := p :: q; running := rn |};
         at_pc := AtDrain; locked := lk; out := o |} =
  run t {| node := {| name := nm; buffer := q; running := rn |};
           at_pc := AtDrain; locked := true;
           out := o ++ [processing_line nm p] |}.
Proof. reflexivity. Qed.

(** The inner loop, undisturbed: it prints the whole queue in order, three
    steps a packet, and leaves by the empty test. *)
Lemma drain (q : list Packet) :
  forall (nm : string) (rn lk : bool) (o : list Event),
    run (repeat Run (3 * List.length q + 1))
        {| node := {| name := nm; buffer := q; running := rn |};
           at_pc := AtDrain; locked := lk; out := o |} =
    Some {| node := {| name := nm; buffer := []; running := rn |};
            at_pc := AtWhile; locked := false;
            out := o ++ map (processing_line nm) q |}.
Proof.
  induction q as [| p q IH]; intros nm rn lk o.
  - cbn. now rewrite app_nil_r.
  - replace (3 * List.length (p :: q) + 1)%nat
      with (S (S (S (3 * List.length q + 1)))) by (cbn [List.length]; lia).
    cbn [repeat]. rewrite drain_one, IH. cbn [map].
    now rewrite <- app_assoc.
Qed.

(** From the loop test into the inner loop, when there is work and the
    node is running. *)
Lemma enter_loop (p : Packet) (q : list Packet) (nm : string) (lk : bool)
    (o : list Event) (t : list action) :
  run (Run :: Run :: Run :: Run :: t)
      {| node := {| name := nm; buffer := p :: q; running := true |};
         at_pc := AtWhile; locked := lk; out := o |} =
  run t {| node := {| name := nm; buffer := p :: q; running := true |};
           at_pc := AtDrain; locked := true; out := o |}.
Proof. reflexivity. Qed.

(** From the print back to the queue test. *)
Lemma print_and_relock (p : Packet) (n : Node) (lk : bool)
    (o : list Event) (t : list action) :
  run (Run :: Run :: t)
      {| node := n; at_pc := AtPrint p; locked := lk; out := o |} =
  run t {| node := n; at_pc := AtDrain; locked := true;
           out := o ++ [processing_line (name n) p] |}.
Proof. reflexivity. Qed.

Lemma relock (n : Node) (lk : bool) (o : list Event) (t : list action) :
  run (Run :: t) {| node := n; at_pc := AtRelock; locked := lk; out := o |} =
  run t {| node := n; at_pc := AtDrain; locked := true; out := o |}.
Proof. reflexivity. Qed.

(** X5: an undisturbed running thread does its work and then blocks.  From
    the loop test with [running] set, the thread alone prints every queued
    packet in queue order, empties the queue and ends up blocked in the
    wait with the mutex released, [running] still set. *)
Theorem idle_thread_drains_then_waits (s : state) :
  at_pc s = AtWhile ->
  running (node s) = true ->
  exists k s',
    run (repeat Run k) s = Some s' /\
    at_pc s' = Waiting /\ locked s' = false /\
    buffer (node s') = [] /\ running (node s') = true /\
    out s' = out s ++ map (processing_line (name (node s))) (buffer (node s)).
Proof.
  intros Hat Hflag. destruct s as [[nm q rn] l lk o]. cbn in *. subst l rn.
  destruct q as [| p q].
  - exists 3%nat. eexists. cbn. repeat split. now rewrite app_nil_r.
  - exists (S (S (S (S ((3 * List.length (p :: q) + 1) + 3))))). eexists.
    cbn [repeat]. rewrite enter_loop, repeat_app, run_app, drain.
    cbn. repeat split.
Qed.

(** X4: [stop] takes effect.  From any state with [running] false, the
    thread alone returns within [3 * (queue length) + 5] of its own steps,
    whatever statement it is at.  Inside the inner loop it first finishes
    the queue: it prints the packet in hand and every queued packet, in
    order, leaves the queue empty and then writes "stopping".  Anywhere
    else it leaves at once: it writes "stopping" (nothing, if it had
    already returned) and the queue stays as it was. *)
Theorem stopped_thread_returns (s : state) :
  running (node s) = false ->
  exists k s',
    (k <= 3 * List.length (buffer (node s)) + 5)%nat /\
    run (repeat Run k) s = Some s' /\
    at_pc s' = Done /\ running (node s') = false /\
    (in_inner_loop (at_pc s) = true ->
     buffer (node s') = [] /\
     out s' = out s ++
              map (processing_line (name (node s)))
                  (in_flight (at_pc s) ++ buffer (node s)) ++
              [Stopping (name (node s))]) /\
    (in_inner_loop (at_pc s) = false ->
     buffer (node s') = buffer (node s) /\
     out s' = out s ++
              match at_pc s with
              | Done => []
              | _ => [Stopping (name (node s))]
              end).
Proof.
  intros Hflag. destruct s as [[nm q rn] l lk o]. cbn in *. subst rn.
  destruct l.
  - exists 2%nat. eexists. split; [lia |]. cbn.
    repeat (split || intro); try discriminate; reflexivity.
  - exists 4%nat. eexists. split; [lia |]. destruct q; cbn;
      repeat (split || intro); try discriminate; reflexivity.
  - exists 3%nat. eexists. split; [lia |]. destruct q; cbn;
      repeat (split || intro); try discriminate; reflexivity.
  - exists 4%nat. eexists. split; [lia |]. destruct q; cbn;
      repeat (split || intro); try discriminate; reflexivity.
  - exists 2%nat. eexists. split; [lia |]. cbn.
    repeat (split || intro); try discriminate; reflexivity.
  - exists ((3 * List.length q + 1) + 2)%nat. eexists. split; [lia |].
    rewrite repeat_app, run_app, drain. cbn.
    repeat (split || intro); try discriminate;
      cbn; rewrite <- ?app_assoc; reflexivity.
  - exists (S (S ((3 * List.length q + 1) + 2))). eexists. split; [lia |].
    cbn [repeat]. rewrite print_and_relock, repeat_app, run_app, drain.
    cbn. repeat (split || intro); try discriminate;
      cbn; rewrite <- ?app_assoc; reflexivity.
  - exists (S ((3 * List.length q + 1) + 2)). eexists. split; [lia |].
    cbn [repeat]. rewrite relock, repeat_app, run_app, drain.
    cbn. repeat (split || intro); try discriminate;
      cbn; rewrite <- ?app_assoc; reflexivity.
  - exists 1%nat. eexists. split; [lia |]. cbn.
    repeat (split || intro); try discriminate; reflexivity.
  - exists 0%nat. eexists. split; [lia |]. cbn.
    repeat (split || intro); try discriminate;
      cbn; rewrite ?app_nil_r; reflexivity.
Qed.

Lemma processing_is_fifo_witness :
  no_raise busy_trace = true /\
  run busy_trace (start (newNode "Node B")) = Some printing_state /\
  filter is_processing (out printing_state) ++
  map (processing_line (name (newNode "Node B")))
      (in_flight (at_pc printing_state) ++ buffer (node printing_state)) =
  map (processing_line (name (newNode "Node B")))
      (buffer (newNode "Node B") ++ enqueued busy_trace).
Proof.
  split; [reflexivity | split; [reflexivity |]].
  apply (@processing_is_fifo (newNode "Node B") busy_trace printing_state);
    reflexivity.
Defined.

Lemma mutex_discipline_witness :
  run busy_trace (start (newNode "Node B")) = Some printing_state /\
  locked printing_state = owns (at_pc printing_state) /\
  (forall packet, at_pc printing_state = AtPrint packet ->
                  locked printing_state = false) /\
  (exited (at_pc printing_state) = true -> locked printing_state = false) /\
  (forall packet,
     step (Enqueue packet) printing_state <> None <->
     owns (at_pc printing_state) = false) /\
  (step Halt printing_state <> None <-> owns (at_pc printing_state) = false).
Proof.
  split; [reflexivity |].
  apply (@mutex_discipline (newNode "Node B") busy_trace printing_state).
  reflexivity.
Defined.

Lemma stopped_node_stays_stopped_witness :
  run [Run; Run] woken_state = Some returned_state /\
  name (node returned_state) = name (node woken_state) /\
  (running (node woken_state) = false -> running (node returned_state) = false).
Proof.
  split; [reflexivity |].
  apply (@stopped_node_stays_stopped [Run; Run] woken_state returned_state).
  reflexivity.
Defined.

Lemma stopping_line_is_written_once_and_last_witness :
  run stopping_trace (start (newNode "Node B")) = Some returned_state /\
  (at_pc returned_state <> Done -> filter is_stopping (out returned_state) = []) /\
  (at_pc returned_state = Done ->
   (exists lines,
      out returned_state = lines ++ [Stopping (name (newNode "Node B"))] /\
      filter is_stopping lines = []) /\
   step Run returned_state = None /\
   forall e, step (Raise e) returned_state = None).
Proof.
  split; [reflexivity |].
  apply (@stopping_line_is_written_once_and_last
           (newNode "Node B") stopping_trace returned_state).
  reflexivity.
Defined.

Lemma each_error_drops_at_most_one_packet_witness :
  run faulty_trace (start (newNode "Node B")) = Some faulted_state /\
  (accounted faulted_state
   <= List.length (buffer (newNode "Node B")) +
      List.length (enqueued faulty_trace))%nat /\
  (List.length (buffer (newNode "Node B")) + List.length (enqueued faulty_trace)
   <= accounted faulted_state + reported faulted_state)%nat.
Proof.
  split; [reflexivity |].
  apply (@each_error_drops_at_most_one_packet
           (newNode "Node B") faulty_trace faulted_state).
  reflexivity.
Defined.

Lemma idle_thread_drains_then_waits_witness :
  at_pc (start loaded_node) = AtWhile /\
  running (node (start loaded_node)) = true /\
  exists k s',
    run (repeat Run k) (start loaded_node) = Some s' /\
    at_pc s' = Waiting /\ locked s' = false /\
    buffer (node s') = [] /\ running (node s') = true /\
    out s' = out (start loaded_node) ++
             map (processing_line (name (node (start loaded_node))))
                 (buffer (node (start loaded_node))).
Proof.
  split; [reflexivity | split; [reflexivity |]].
  apply (idle_thread_drains_then_waits (start loaded_node)); reflexivity.
Defined.

Lemma stopped_thread_returns_witness :
  running (node stopped_printing_state) = false /\
  exists k s',
    (k <= 3 * List.length (buffer (node stopped_printing_state)) + 5)%nat /\
    run (repeat Run k) stopped_printing_state = Some s' /\
    at_pc s' = Done /\ running (node s') = false /\
    (in_inner_loop (at_pc stopped_printing_state) = true ->
     buffer (node s') = [] /\
     out s' = out stopped_printing_state ++
              map (processing_line (name (node stopped_printing_state)))
                  (in_flight (at_pc stopped_printing_state) ++
                   buffer (node stopped_printing_state)) ++
              [Stopping (name (node stopped_printing_state))]) /\
    (in_inner_loop (at_pc stopped_printing_state) = false ->
     buffer (node s') = buffer (node stopped_printing_state) /\
     out s' = out stopped_printing_state ++
              match at_pc stopped_printing_state with
              | Done => []
              | _ => [Stopping (name (node stopped_printing_state))]
              end).
Proof.
  split; [reflexivity |].
  apply (stopped_thread_returns stopped_printing_state). reflexivity.
Defined.

(** A stopped thread caught in the inner loop, and one caught at the
    [break] test: the first prints both packets before it stops, the
    second leaves its packet queued. *)
Example stopped_thread_lines :
  option_map (fun s => (out s, buffer (node s), at_pc s))
    (run (repeat Run 8) stopped_printing_state) =
  Some ([Processing "Node B" "Test" 1; Processing "Node B" "Packet" 2;
         Stopping "Node B"], [], Done) /\
  option_map (fun s => (out s, buffer (node s), at_pc s))
    (run (repeat Run 2) woken_state) =
  Some ([Stopping "Node B"], [packet1], Done).
Proof. split; reflexivity. Qed.

(** The two packets of [main] on node B: the thread alone prints them in
    order and blocks. *)
Example loaded_node_lines :
  option_map (fun s => (out s, at_pc s, locked s))
    (run (repeat Run 14) (start loaded_node)) =
  Some ([Processing "Node B" "Test" 1; Processing "Node B" "Packet" 2],
        Waiting, false).
Proof. reflexivity. Qed.

End WorkerLaws.

(** * Further properties of [send] and [receive] *)

Section SendLaws.

Context {G : Type} {E : Engine G}.
Variable recv : addr -> Packet -> addr -> M G unit.
Variables (self : addr) (packet : Packet) (receiver : addr).

Lemma send_loop_returns_iff (budget : nat) :
  forall (retryCount : Z) (w w' : World G),
    Z.of_nat budget = MAX_RETRIES - retryCount ->
    (send_loop recv self packet receiver budget retryCount w
       = Some (Returned tt, w') <->
     exists k, (k < budget)%nat /\
               returns_after recv self packet receiver k retryCount w w').
Proof.
  induction budget as [| budget IH]; intros retryCount w w' Hgap.
  - rewrite send_loop_exhausted by lia. split.
    + discriminate.
    + intros (k & Hk & _). lia.
  - rewrite send_loop_attempt by lia.
    destruct (recv receiver packet self
                (on_the_wire self packet receiver retryCount w))
      as [[[[] | e] w1] |] eqn:Hrecv.
    + split.
      * intros Heq. exists 0%nat. split; [lia |]. cbn. now rewrite Hrecv.
      * intros (k & _ & Hk). destruct k; cbn in Hk.
        -- now rewrite Hrecv in Hk.
        -- destruct Hk as (e' & w2 & Hthrow & _). rewrite Hrecv in Hthrow.
           discriminate.
    + rewrite IH by lia. split.
      * intros (k & Hk & Hchain). exists (S k). split; [lia |].
        cbn. exists e, w1. now rewrite Hrecv.
      * intros (k & Hk & Hchain). destruct k; cbn in Hchain.
        -- rewrite Hrecv in Hchain. discriminate.
        -- destruct Hchain as (e' & w2 & Hthrow & Hchain).
           rewrite Hrecv in Hthrow. inversion Hthrow; subst.
           exists k. split; [lia | exact Hchain].
    + split.
      * discriminate.
      * intros (k & _ & Hk). destruct k; cbn in Hk.
        -- rewrite Hrecv in Hk. discriminate.
        -- destruct Hk as (e' & w2 & Hthrow & _). rewrite Hrecv in Hthrow.
           discriminate.
Qed.

End SendLaws.

(** X8: when [send] succeeds.  Against any receiver, [send] returns
    normally with world [w'] exactly when [receive] threw on its first [k]
    attempts, for some [k] below 3, and returned on the next one leaving
    [w']: a failure of an earlier attempt is recovered from, and [send]
    adds nothing after the attempt that returns. *)
Theorem send_returns_iff_an_attempt_returns {G : Type} {E : Engine G}
    (recv : addr -> Packet -> addr -> M G unit)
    (self : addr) (packet : Packet) (receiver : addr) (w w' : World G) :
  send_with recv self packet receiver w = Some (Returned tt, w') <->
  exists k, (k < 3)%nat /\ returns_after recv self packet receiver k 0 w w'.
Proof.
  unfold send_with. change (Z.to_nat MAX_RETRIES) with 3%nat.
  apply send_loop_returns_iff. reflexivity.
Qed.

(** A [send] that fails once and then gets through, on the two nodes of
    [main]. *)
Example send_recovers :
  option_map (fun r => (fst r, cout (snd r)))
    (send_with flaky_receive 0%nat packet1 1%nat
               (world0 [0.25%float; 0.75%float])) =
  Some (Returned tt,
        [Sending "Node A" DATA "Test" 1 "Node B" 1;
         SendFailed "Node A" "Node B" "receive failed";
         Sending "Node A" DATA "Test" 1 "Node B" 2]).
Proof. reflexivity. Qed.
Section PlainLaws.

Context {G : Type} {E : Engine G}.

(** The world a [send] of the plain revision leaves. *)
Lemma plain_send_eq (depth : nat) (self : addr) (p : Packet) (receiver : addr)
    (w : World G) :
  Plain.send (S depth) self p receiver w =
  Some (Returned tt,
        match type p with
        | DATA =>
            delivered self (ackPacket p)
              (on_the_wire receiver (ackPacket p) self 0
                 (delivered receiver p (on_the_wire self p receiver 0 w)))
        | ACK => delivered receiver p (on_the_wire self p receiver 0 w)
        end).
Proof.
  unfold Plain.send, send_with. change (Z.to_nat MAX_RETRIES) with 3%nat.
  rewrite send_loop_attempt by (unfold MAX_RETRIES; lia).
  now rewrite plain_receive_returns.
Qed.

Lemma delivered_node (x : addr) (q : Packet) (v : World G) (a : addr) :
  nodes (delivered x q v) a =
  if Nat.eqb a x then push q (nodes v x) else nodes v a.
Proof. reflexivity. Qed.

Lemma delivered_buffer (x : addr) (q : Packet) (v : World G) (a : addr) :
  buffer (nodes (delivered x q v) a) =
  buffer (nodes v a) ++ (if Nat.eqb a x then [q] else []).
Proof.
  rewrite delivered_node.
  destruct (Nat.eqb_spec a x) as [-> | _]; [reflexivity |].
  now rewrite app_nil_r.
Qed.

Lemma delivered_running (x : addr) (q : Packet) (v : World G) (a : addr) :
  running (nodes (delivered x q v) a) = running (nodes v a).
Proof.
  rewrite delivered_node. destruct (Nat.eqb_spec a x) as [-> | _]; reflexivity.
Qed.

Lemma on_the_wire_name (self : addr) (p : Packet) (receiver : addr)
    (retryCount : Z) (v : World G) (a : addr) :
  getName a (on_the_wire self p receiver retryCount v) = getName a v.
Proof. reflexivity. Qed.

End PlainLaws.

(** Every node keeps its name and flag, and gains [plain_pushed]. *)
Lemma plain_send_nodes {G : Type} {E : Engine G}
    (depth : nat) (self : addr) (p : Packet) (receiver : addr) (w : World G) :
  exists w',
    Plain.send (S depth) self p receiver w = Some (Returned tt, w') /\
    forall a,
      buffer (nodes w' a) = buffer (nodes w a) ++ plain_pushed self p receiver a /\
      name (nodes w' a) = name (nodes w a) /\
      running (nodes w' a) = running (nodes w a).
Proof.
  rewrite plain_send_eq. eexists. split; [reflexivity |].
  intros a. unfold plain_pushed. destruct (type p).
  - split; [| split].
    + rewrite delivered_buffer. cbn [nodes on_the_wire drawn printed].
      rewrite delivered_buffer. cbn [nodes on_the_wire drawn printed].
      now rewrite <- app_assoc.
    + change (getName a
                (delivered self (ackPacket p)
                   (on_the_wire receiver (ackPacket p) self 0
                      (delivered receiver p (on_the_wire self p receiver 0 w))))
              = getName a w).
      now repeat (rewrite on_the_wire_name || rewrite delivered_name).
    + rewrite delivered_running. cbn [nodes on_the_wire drawn printed].
      now rewrite delivered_running.
  - split; [| split].
    + rewrite delivered_buffer. cbn [nodes on_the_wire drawn printed].
      now rewrite app_nil_r.
    + change (getName a (delivered receiver p (on_the_wire self p receiver 0 w))
              = getName a w).
      now repeat (rewrite on_the_wire_name || rewrite delivered_name).
    + now rewrite delivered_running.
Qed.

(** X9: what a [send] of [src/main.cpp] does to the world.  It returns
    normally, and afterwards: the receiver's buffer has the packet at the
    back; for a [DATA] packet the sender's buffer has the acknowledgement
    (payload "ACK", same sequence number) at the back; no other buffer
    changes, no node is renamed or stopped; [cout] has gained the
    "sending" and "received" lines of the packet and, for [DATA], of the
    acknowledgement, each sent with attempt 1; the generator has given one
    delay per packet sent. *)
Theorem plain_send_round_trip {G : Type} {E : Engine G}
    (depth : nat) (self : addr) (p : Packet) (receiver : addr) (w : World G) :
  exists w',
    Plain.send (S depth) self p receiver w = Some (Returned tt, w') /\
    (forall a,
       buffer (nodes w' a) = buffer (nodes w a) ++ plain_pushed self p receiver a /\
       name (nodes w' a) = name (nodes w a) /\
       running (nodes w' a) = running (nodes w a)) /\
    cout w' =
      cout w ++
      Sending (getName self w) (type p) (data p) (sequenceNumber p)
              (getName receiver w) 1 ::
      Received (getName receiver w) (type p) (data p) (sequenceNumber p) ::
      match type p with
      | DATA => [Sending (getName receiver w) ACK "ACK" (sequenceNumber p)
                         (getName self w) 1;
                 Received (getName self w) ACK "ACK" (sequenceNumber p)]
      | ACK => []
      end /\
    gen w' =
      match type p with
      | DATA => snd (uniform_int 500 1000 (snd (uniform_int 500 1000 (gen w))))
      | ACK => snd (uniform_int 500 1000 (gen w))
      end.
Proof.
  destruct (plain_send_nodes depth self p receiver w) as (w' & Hsend & Hnodes).
  exists w'. split; [exact Hsend |]. split; [exact Hnodes |].
  rewrite plain_send_eq in Hsend. inversion Hsend as [Hw']. clear Hsend.
  destruct (type p) eqn:Htype.
  - split; [| reflexivity].
    rewrite delivered_cout, on_the_wire_cout, delivered_cout, on_the_wire_cout.
    repeat (rewrite on_the_wire_name || rewrite delivered_name).
    rewrite <- !app_assoc. cbn. now rewrite Htype.
  - split; [| reflexivity].
    rewrite delivered_cout, on_the_wire_cout.
    repeat (rewrite on_the_wire_name || rewrite delivered_name).
    rewrite <- !app_assoc. cbn. now rewrite Htype.
Qed.

Section LossyLaws.

Context {G : Type} {E : Engine G}.

(** The world a [send] of the lossy revision leaves. *)
Lemma lossy_send_eq (depth : nat) (self : addr) (p : Packet) (receiver : addr)
    (w : World G) :
  Lossy.send (S depth) self p receiver w =
  Some (Returned tt,
        if Lossy.lost (on_the_wire self p receiver 0 w)
        then Lossy.arrived receiver p (on_the_wire self p receiver 0 w)
        else match type p with
             | DATA =>
                 Lossy.arrived self (ackPacket p)
                   (on_the_wire receiver (ackPacket p) self 0
                      (Lossy.arrived receiver p (on_the_wire self p receiver 0 w)))
             | ACK => Lossy.arrived receiver p (on_the_wire self p receiver 0 w)
             end).
Proof.
  unfold Lossy.send, send_with. change (Z.to_nat MAX_RETRIES) with 3%nat.
  rewrite send_loop_attempt by (unfold MAX_RETRIES; lia).
  now rewrite lossy_receive_returns.
Qed.

Lemma arrived_buffer (x : addr) (q : Packet) (v : World G) (a : addr) :
  buffer (nodes (Lossy.arrived x q v) a) =
  buffer (nodes v a) ++ (if Nat.eqb a x then kept_as q v else []).
Proof.
  unfold Lossy.arrived, Lossy.landed, kept_as.
  destruct (Lossy.lost v).
  - cbn. now destruct (Nat.eqb a x); rewrite app_nil_r.
  - destruct (Lossy.corrupted v); rewrite delivered_buffer; reflexivity.
Qed.

Lemma arrived_running (x : addr) (q : Packet) (v : World G) (a : addr) :
  running (nodes (Lossy.arrived x q v) a) = running (nodes v a).
Proof.
  unfold Lossy.arrived, Lossy.landed.
  destruct (Lossy.lost v); [reflexivity |].
  destruct (Lossy.corrupted v); now rewrite delivered_running.
Qed.

Lemma kept_as_facts (q : Packet) (v : World G) :
  (List.length (kept_as q v) <= 1)%nat /\
  Forall (fun x => (x = q \/ x = Lossy.corrupt q) /\
                   sequenceNumber x = sequenceNumber q /\ type x = type q)
         (kept_as q v).
Proof.
  unfold kept_as. destruct (Lossy.lost v); [cbn; auto |].
  destruct (Lossy.corrupted v); cbn; split; auto.
Qed.

Lemma arrived_lines (x : addr) (q : Packet) (v : World G) :
  exists lines,
    cout (Lossy.arrived x q v) = cout v ++ lines /\
    filter is_retry_line lines = [].
Proof.
  unfold Lossy.arrived, Lossy.landed.
  destruct (Lossy.lost v).
  - eexists. split; reflexivity.
  - destruct (Lossy.corrupted v); rewrite delivered_cout; cbn [cout printed drawn].
    + rewrite <- app_assoc. eexists. split; reflexivity.
    + eexists. split; reflexivity.
Qed.

(** Every node keeps its name and flag, and gains [lossy_pushed]. *)
Lemma lossy_send_nodes (depth : nat) (self : addr) (p : Packet)
    (receiver : addr) (w : World G) :
  exists w',
    Lossy.send (S depth) self p receiver w = Some (Returned tt, w') /\
    forall a,
      buffer (nodes w' a) =
        buffer (nodes w a) ++ lossy_pushed self p receiver w a /\
      getName a w' = getName a w /\
      running (nodes w' a) = running (nodes w a).
Proof.
  rewrite lossy_send_eq. eexists. split; [reflexivity |].
  intros a. unfold lossy_pushed. cbv zeta.
  destruct (Lossy.lost (on_the_wire self p receiver 0 w)) eqn:Hlost.
  - rewrite arrived_buffer, arrived_name, arrived_running.
    rewrite app_nil_r. repeat split.
  - destruct (type p).
    + rewrite arrived_buffer, arrived_name, arrived_running.
      cbn [nodes on_the_wire drawn printed].
      rewrite on_the_wire_name.
      rewrite arrived_buffer, arrived_name, arrived_running.
      rewrite <- app_assoc. repeat split.
    + rewrite arrived_buffer, arrived_name, arrived_running.
      rewrite app_nil_r. repeat split.
Qed.

End LossyLaws.
Lemma lossy_pushed_facts {G : Type} {E : Engine G} (self : addr) (p : Packet)
    (receiver : addr) (w : World G) (a : addr) :
  (List.length (lossy_pushed self p receiver w a) <= 2)%nat /\
  (self <> receiver -> (List.length (lossy_pushed self p receiver w a) <= 1)%nat) /\
  (a <> self -> a <> receiver -> lossy_pushed self p receiver w a = []) /\
  Forall (fun x => sequenceNumber x = sequenceNumber p /\
                   (data x = data p \/ data x = "ACK" \/ data x = "CORRUPTED"))
         (lossy_pushed self p receiver w a).
Proof.
  unfold lossy_pushed. cbv zeta.
  set (v := on_the_wire self p receiver 0 w).
  set (v2 := on_the_wire receiver (ackPacket p) self 0 (Lossy.arrived receiver p v)).
  destruct (kept_as_facts p v) as [L1 F1].
  destruct (kept_as_facts (ackPacket p) v2) as [L2 F2].
  assert (F1' : Forall (fun x => sequenceNumber x = sequenceNumber p /\
                   (data x = data p \/ data x = "ACK" \/ data x = "CORRUPTED"))
                       (kept_as p v)).
  { eapply Forall_impl; [| exact F1]. cbn.
    intros x [[-> | ->] [Hseq _]]; cbn; auto. }
  assert (F2' : Forall (fun x => sequenceNumber x = sequenceNumber p /\
                   (data x = data p \/ data x = "ACK" \/ data x = "CORRUPTED"))
                       (kept_as (ackPacket p) v2)).
  { eapply Forall_impl; [| exact F2]. cbn.
    intros x [[-> | ->] [Hseq _]]; cbn; auto. }
  destruct (Nat.eqb_spec a receiver) as [Har | Har];
    destruct (Nat.eqb_spec a self) as [Has | Has];
    destruct (Lossy.lost v); destruct (type p);
    rewrite ?app_nil_r; cbn [app];
    (split; [rewrite ?length_app; cbn [List.length]; lia |]);
    (split; [intros Hne; try congruence;
             rewrite ?length_app; cbn [List.length]; lia |]);
    (split; [intros H1 H2; try congruence; reflexivity |]);
    try apply Forall_app; auto.
Qed.

(** X10: what a [send] of the lossy revision does to the nodes.  It
    returns normally, whatever the samples.  No node is renamed or
    stopped; each buffer keeps what it had, in order, and gains at the
    back at most two packets (at most one when sender and receiver are
    different nodes, none at a third node); every packet gained carries
    the sequence number of the packet sent, and its payload is the
    original payload, "ACK" or "CORRUPTED". *)
Theorem lossy_send_only_appends {G : Type} {E : Engine G}
    (depth : nat) (self : addr) (p : Packet) (receiver : addr) (w : World G) :
  exists w',
    Lossy.send (S depth) self p receiver w = Some (Returned tt, w') /\
    forall a,
      name (nodes w' a) = name (nodes w a) /\
      running (nodes w' a) = running (nodes w a) /\
      exists new,
        buffer (nodes w' a) = buffer (nodes w a) ++ new /\
        (List.length new <= 2)%nat /\
        (self <> receiver -> (List.length new <= 1)%nat) /\
        (a <> self -> a <> receiver -> new = []) /\
        Forall (fun x => sequenceNumber x = sequenceNumber p /\
                         (data x = data p \/ data x = "ACK" \/
                          data x = "CORRUPTED")) new.
Proof.
  destruct (lossy_send_nodes depth self p receiver w) as (w' & Hsend & Hnodes).
  exists w'. split; [exact Hsend |]. intros a.
  destruct (Hnodes a) as (Hbuffer & Hname & Hflag).
  split; [exact Hname | split; [exact Hflag |]].
  exists (lossy_pushed self p receiver w a).
  split; [exact Hbuffer |]. apply lossy_pushed_facts.
Qed.
Section Lines.

Context {G : Type} {E : Engine G}.

Lemma plain_send_lines (depth : nat) (self : addr) (p : Packet)
    (receiver : addr) (w : World G) :
  exists w' lines,
    Plain.send (S depth) self p receiver w = Some (Returned tt, w') /\
    cout w' = cout w ++
              Sending (getName self w) (type p) (data p) (sequenceNumber p)
                      (getName receiver w) 1 :: lines /\
    filter is_retry_line lines = [].
Proof.
  rewrite plain_send_eq. destruct (type p) eqn:Htype.
  - eexists _, _. split; [reflexivity |].
    rewrite delivered_cout, on_the_wire_cout, delivered_cout, on_the_wire_cout.
    rewrite <- !app_assoc, Htype. split; reflexivity.
  - eexists _, _. split; [reflexivity |].
    rewrite delivered_cout, on_the_wire_cout.
    rewrite <- !app_assoc, Htype. split; reflexivity.
Qed.

Lemma lossy_send_lines (depth : nat) (self : addr) (p : Packet)
    (receiver : addr) (w : World G) :
  exists w' lines,
    Lossy.send (S depth) self p receiver w = Some (Returned tt, w') /\
    cout w' = cout w ++
              Sending (getName self w) (type p) (data p) (sequenceNumber p)
                      (getName receiver w) 1 :: lines /\
    filter is_retry_line lines = [].
Proof.
  rewrite lossy_send_eq.
  destruct (arrived_lines receiver p (on_the_wire self p receiver 0 w))
    as (l1 & Hl1 & Hf1).
  destruct (arrived_lines self (ackPacket p)
              (on_the_wire receiver (ackPacket p) self 0
                 (Lossy.arrived receiver p (on_the_wire self p receiver 0 w))))
    as (l2 & Hl2 & Hf2).
  destruct (Lossy.lost (on_the_wire self p receiver 0 w));
    [| destruct (type p) eqn:Htype].
  - eexists _, l1. split; [reflexivity |].
    rewrite Hl1, on_the_wire_cout, <- app_assoc. auto.
  - eexists _, _. split; [reflexivity |].
    rewrite Hl2, on_the_wire_cout, Hl1, on_the_wire_cout.
    rewrite <- !app_assoc, Htype. split; [reflexivity |].
    rewrite filter_app, Hf1. cbn. exact Hf2.
  - eexists _, l1. split; [reflexivity |].
    rewrite Hl1, on_the_wire_cout, <- app_assoc, Htype. auto.
Qed.

End Lines.

(** X11: the retry path is dead in the program as composed.  In both
    revisions a [send] that calls the program's own [receive] returns
    normally after its first attempt: it writes the "sending" line of
    attempt 1 and, after it, no "failed to send" line, no "after 3
    attempts" line and no "sending" line of a later attempt, whatever the
    packet, the nodes and the samples, a lost packet included. *)
Theorem composed_send_never_retries {G : Type} {E : Engine G}
    (depth : nat) (self : addr) (p : Packet) (receiver : addr) (w : World G) :
  (exists w' lines,
     Plain.send (S depth) self p receiver w = Some (Returned tt, w') /\
     cout w' = cout w ++
               Sending (getName self w) (type p) (data p) (sequenceNumber p)
                       (getName receiver w) 1 :: lines /\
     filter is_retry_line lines = []) /\
  (exists w' lines,
     Lossy.send (S depth) self p receiver w = Some (Returned tt, w') /\
     cout w' = cout w ++
               Sending (getName self w) (type p) (data p) (sequenceNumber p)
                       (getName receiver w) 1 :: lines /\
     filter is_retry_line lines = []).
Proof.
  split; [apply plain_send_lines | apply lossy_send_lines].
Qed.

(** X12: [receive] does not look at [running].  A packet sent to a node
    that has been stopped is enqueued all the same and the node's flag
    stays false: in [src/main.cpp] always, with its acknowledgement going
    out for a [DATA] packet; in the lossy revision whenever the packet is
    not lost, as the packet or with the sentinel payload. *)
Theorem stopped_node_still_receives {G : Type} {E : Engine G}
    (depth : nat) (self : addr) (p : Packet) (receiver : addr) (w : World G) :
  running (nodes w receiver) = false ->
  (exists w' rest,
     Plain.send (S depth) self p receiver w = Some (Returned tt, w') /\
     running (nodes w' receiver) = false /\
     buffer (nodes w' receiver) = buffer (nodes w receiver) ++ p :: rest /\
     (type p = DATA ->
      In (Sending (getName receiver w) ACK "ACK" (sequenceNumber p)
                  (getName self w) 1) (cout w'))) /\
  (exists w',
     Lossy.send (S depth) self p receiver w = Some (Returned tt, w') /\
     running (nodes w' receiver) = false /\
     (Lossy.lost (on_the_wire self p receiver 0 w) = false ->
      exists q rest,
        (q = p \/ q = Lossy.corrupt p) /\
        buffer (nodes w' receiver) = buffer (nodes w receiver) ++ q :: rest)).
Proof.
  intros Hstopped. split.
  - destruct (plain_send_nodes depth self p receiver w) as (w' & Hsend & Hnodes).
    destruct (Hnodes receiver) as (Hbuffer & _ & Hflag).
    exists w'. eexists. split; [exact Hsend |].
    split; [congruence |]. split.
    + rewrite Hbuffer. unfold plain_pushed. rewrite Nat.eqb_refl. reflexivity.
    + intros Hdata. rewrite plain_send_eq in Hsend. rewrite Hdata in Hsend.
      inversion Hsend as [Hw']. clear Hsend.
      rewrite delivered_cout, on_the_wire_cout.
      repeat (rewrite on_the_wire_name || rewrite delivered_name).
      apply in_or_app. left. apply in_or_app. right. now left.
  - destruct (lossy_send_nodes depth self p receiver w) as (w' & Hsend & Hnodes).
    destruct (Hnodes receiver) as (Hbuffer & _ & Hflag).
    exists w'. split; [exact Hsend |]. split; [congruence |].
    intros Hkept. rewrite Hbuffer. unfold lossy_pushed. cbv zeta.
    rewrite Nat.eqb_refl, Hkept. unfold kept_as. rewrite Hkept.
    destruct (Lossy.corrupted (on_the_wire self p receiver 0 w)).
    + exists (Lossy.corrupt p). eexists. split; [now right | reflexivity].
    + exists p. eexists. split; [now left | reflexivity].
Qed.
(** * Properties of [main] *)

Section MainLaws.

Context {G : Type}.
Variable send : addr -> Packet -> addr -> M G unit.

(** [main] according to what the two [send]s do. *)
Lemma main_cases (seed : G) :
  main send seed =
  match send 0%nat packet1 1%nat (main_world seed) with
  | None => None
  | Some (Thrown e, w1) =>
      Some (Returned (0, [String.append "Failed to send packet: " (what e)]),
            updated 1%nat (set_running false) w1)
  | Some (Returned _, w1) =>
      match send 0%nat packet2 1%nat w1 with
      | None => None
      | Some (Thrown e, w2) =>
          Some (Returned (0, [String.append "Failed to send packet: " (what e)]),
                updated 1%nat (set_running false) w2)
      | Some (Returned _, w2) =>
          Some (Returned (0, []), updated 1%nat (set_running false) w2)
      end
  end.
Proof.
  unfold main, main_body, stop.
  cbv beta iota delta [try_catch bind ret on_node].
  destruct (send 0%nat packet1 1%nat (main_world seed)) as [[[[] | e] w1] |];
    try reflexivity.
  destruct (send 0%nat packet2 1%nat w1) as [[[[] | e] w2] |]; reflexivity.
Qed.

End MainLaws.

(** X13: the exit code.  Whatever the two [send]s do, as long as they
    come back, [main] returns 0: a failed delivery is caught by the inner
    [catch], which writes one "Failed to send packet" line on [std::cerr],
    and never reaches the outer one.  Node B has been stopped when [main]
    returns. *)
Theorem main_returns_zero {G : Type}
    (send : addr -> Packet -> addr -> M G unit) (seed : G) :
  (forall a p b w, send a p b w <> None) ->
  exists cerr w',
    main send seed = Some (Returned (0, cerr), w') /\
    running (nodes w' 1%nat) = false /\
    (cerr = [] \/
     exists e, cerr = [String.append "Failed to send packet: " (what e)]).
Proof.
  intros Htotal. rewrite main_cases.
  destruct (send 0%nat packet1 1%nat (main_world seed))
    as [[[[] | e] w1] |] eqn:H1.
  - destruct (send 0%nat packet2 1%nat w1) as [[[[] | e] w2] |] eqn:H2.
    + eexists _, _. split; [reflexivity |]. split; [reflexivity | now left].
    + eexists _, _. split; [reflexivity |]. split; [reflexivity |].
      right. now exists e.
    + now apply Htotal in H2.
  - eexists _, _. split; [reflexivity |]. split; [reflexivity |].
    right. now exists e.
  - now apply Htotal in H1.
Qed.

(** A [send] against a receiver that always throws gives up. *)
Lemma send_gives_up {G : Type} {E : Engine G}
    (recv : addr -> Packet -> addr -> M G unit)
    (self : addr) (packet : Packet) (receiver : addr) (w : World G) :
  (forall w0, exists e w1, recv receiver packet self w0 = Some (Thrown e, w1)) ->
  exists w', send_with recv self packet receiver w
             = Some (Thrown DeliveryExhausted, w').
Proof.
  intros Hrecv. unfold send_with. change (Z.to_nat MAX_RETRIES) with 3%nat.
  rewrite send_loop_attempt by (unfold MAX_RETRIES; lia).
  destruct (Hrecv (on_the_wire self packet receiver 0 w)) as (e1 & w1 & ->).
  rewrite send_loop_attempt by (unfold MAX_RETRIES; lia).
  destruct (Hrecv (on_the_wire self packet receiver (0 + 1)
                     (after_failure self receiver e1 w1))) as (e2 & w2 & ->).
  rewrite send_loop_attempt by (unfold MAX_RETRIES; lia).
  destruct (Hrecv (on_the_wire self packet receiver (0 + 1 + 1)
                     (after_failure self receiver e2 w2))) as (e3 & w3 & ->).
  rewrite send_loop_exhausted by (unfold MAX_RETRIES; lia).
  eexists. reflexivity.
Qed.

(** X14: a failed first delivery ends the demonstration.  Both [send]s are
    in one [try] block.  If node B's [receive] throws on every attempt at
    the first packet, the first [send] gives up, the inner [catch] writes
    "Failed to send packet: Failed to send packet after maximum retries"
    on [std::cerr], and the second packet is never sent: [main] goes from
    the world the failed [send] left straight to the [stop] of node B and
    returns 0. *)
Theorem failed_first_send_skips_second_packet {G : Type} {E : Engine G}
    (recv : addr -> Packet -> addr -> M G unit) (seed : G) :
  (forall w0, exists e w1, recv 1%nat packet1 0%nat w0 = Some (Thrown e, w1)) ->
  exists w1,
    send_with recv 0%nat packet1 1%nat (main_world seed)
      = Some (Thrown DeliveryExhausted, w1) /\
    main (send_with recv) seed =
      Some (Returned
              (0, ["Failed to send packet: Failed to send packet after maximum retries"]),
            updated 1%nat (set_running false) w1).
Proof.
  intros Hrecv.
  destruct (send_gives_up recv 0%nat packet1 1%nat (main_world seed) Hrecv)
    as (w1 & Hfail).
  exists w1. split; [exact Hfail |].
  rewrite main_cases. now rewrite Hfail.
Qed.

(** X15: the demonstration as composed.  With the [send] of
    [src/main.cpp], for every generator and seed, [main] returns 0 with
    nothing on [std::cerr]; the main thread writes exactly the eight
    "sending" and "received" lines of the two round trips, each packet and
    each acknowledgement sent once; node B is stopped and node A still
    runs; and the two acknowledgements are left in node A's buffer, which
    no thread ever processes.  With the lossy [send], [main] returns 0
    with nothing on [std::cerr] as well, whatever is lost or corrupted:
    both packets go out with attempt 1 and no retry line is written. *)
Theorem main_as_composed {G : Type} {E : Engine G} (seed : G) :
  (exists w',
     main (Plain.send 1) seed = Some (Returned (0, []), w') /\
     cout w' =
       [Sending "Node A" DATA "Test" 1 "Node B" 1;
        Received "Node B" DATA "Test" 1;
        Sending "Node B" ACK "ACK" 1 "Node A" 1;
        Received "Node A" ACK "ACK" 1;
        Sending "Node A" DATA "Packet" 2 "Node B" 1;
        Received "Node B" DATA "Packet" 2;
        Sending "Node B" ACK "ACK" 2 "Node A" 1;
        Received "Node A" ACK "ACK" 2] /\
     buffer (nodes w' 0%nat) = [ackPacket packet1; ackPacket packet2] /\
     running (nodes w' 0%nat) = true /\
     running (nodes w' 1%nat) = false) /\
  (exists w' lines1 lines2,
     main (Lossy.send 1) seed = Some (Returned (0, []), w') /\
     cout w' =
       Sending "Node A" DATA "Test" 1 "Node B" 1 :: lines1 ++
       Sending "Node A" DATA "Packet" 2 "Node B" 1 :: lines2 /\
     filter is_retry_line lines1 = [] /\
     filter is_retry_line lines2 = [] /\
     running (nodes w' 1%nat) = false).
Proof.
  split.
  - rewrite main_cases. eexists. split; [reflexivity |]. repeat split.
  - rewrite main_cases.
    destruct (lossy_send_lines 0 0%nat packet1 1%nat (main_world seed))
      as (w1 & l1 & Hs1 & Hc1 & Hf1).
    destruct (lossy_send_nodes 0 0%nat packet1 1%nat (main_world seed))
      as (w1' & Hs1' & Hn1).
    rewrite Hs1 in Hs1'. inversion Hs1'; subst w1'. clear Hs1'.
    destruct (lossy_send_lines 0 0%nat packet2 1%nat w1)
      as (w2 & l2 & Hs2 & Hc2 & Hf2).
    rewrite Hs1, Hs2.
    exists (updated 1%nat (set_running false) w2), l1, l2.
    split; [reflexivity |]. split; [| split; [exact Hf1 | split; [exact Hf2 |]]].
    + cbn [cout updated]. rewrite Hc2, Hc1.
      destruct (Hn1 0%nat) as (_ & Hname0 & _).
      destruct (Hn1 1%nat) as (_ & Hname1 & _).
      rewrite Hname0, Hname1. cbn. reflexivity.
    + cbn. reflexivity.
Qed.
(** [send] throws exactly when three attempts in a row threw, in terms of
    the worlds of the attempts. *)
Lemma send_throws_chain {G : Type} {E : Engine G}
    (recv : addr -> Packet -> addr -> M G unit)
    (self : addr) (packet : Packet) (receiver : addr) (w w' : World G)
    (e : exception) :
  send_with recv self packet receiver w = Some (Thrown e, w') <->
  exists e1 w1 e2 w2 e3 w3,
    recv receiver packet self (on_the_wire self packet receiver 0 w)
      = Some (Thrown e1, w1) /\
    recv receiver packet self
         (on_the_wire self packet receiver 1 (after_failure self receiver e1 w1))
      = Some (Thrown e2, w2) /\
    recv receiver packet self
         (on_the_wire self packet receiver 2 (after_failure self receiver e2 w2))
      = Some (Thrown e3, w3) /\
    e = DeliveryExhausted /\
    w' = printed (gave_up_line self packet receiver)
                 (after_failure self receiver e3 w3).
Proof.
  unfold send_with. change (Z.to_nat MAX_RETRIES) with 3%nat.
  rewrite send_loop_attempt by (unfold MAX_RETRIES; lia).
  change (0 + 1) with 1.
  destruct (recv receiver packet self (on_the_wire self packet receiver 0 w))
    as [[[[] | e1] w1] |] eqn:R1.
  - split; [discriminate |].
    intros (x1 & v1 & _ & _ & _ & _ & H1 & _). discriminate.
  - rewrite send_loop_attempt by (unfold MAX_RETRIES; lia).
    change (1 + 1) with 2.
    destruct (recv receiver packet self
                (on_the_wire self packet receiver 1
                   (after_failure self receiver e1 w1)))
      as [[[[] | e2] w2] |] eqn:R2.
    + split; [discriminate |].
      intros (x1 & v1 & x2 & v2 & _ & _ & H1 & H2 & _).
      inversion H1; subst. rewrite R2 in H2. discriminate.
    + rewrite send_loop_attempt by (unfold MAX_RETRIES; lia).
      change (2 + 1) with 3.
      destruct (recv receiver packet self
                  (on_the_wire self packet receiver 2
                     (after_failure self receiver e2 w2)))
        as [[[[] | e3] w3] |] eqn:R3.
      * split; [discriminate |].
        intros (x1 & v1 & x2 & v2 & x3 & v3 & H1 & H2 & H3 & _).
        inversion H1; subst. rewrite R2 in H2. inversion H2; subst.
        rewrite R3 in H3. discriminate.
      * rewrite send_loop_exhausted by (unfold MAX_RETRIES; lia). split.
        -- intros Hrun. inversion Hrun; subst.
           exists e1, w1, e2, w2, e3, w3. auto.
        -- intros (x1 & v1 & x2 & v2 & x3 & v3 & H1 & H2 & H3 & -> & ->).
           inversion H1; subst. rewrite R2 in H2. inversion H2; subst.
           rewrite R3 in H3. inversion H3; subst. reflexivity.
      * split; [discriminate |].
        intros (x1 & v1 & x2 & v2 & x3 & v3 & H1 & H2 & H3 & _).
        inversion H1; subst. rewrite R2 in H2. inversion H2; subst.
        rewrite R3 in H3. discriminate.
    + split; [discriminate |].
      intros (x1 & v1 & x2 & v2 & _ & _ & H1 & H2 & _).
      inversion H1; subst. rewrite R2 in H2. discriminate.
  - split; [discriminate |].
    intros (x1 & v1 & _ & _ & _ & _ & H1 & _). discriminate.
Qed.

(** X16: when [send] fails.  Against any receiver, [send] throws exactly
    when [receive] threw on each of three attempts in a row, the second
    and third reached with the "failed to send" line of the attempt before
    and their own "sending" line on [cout]; what it throws is then
    [DeliveryExhausted], and the world is the one the third failure left,
    nodes and generator as they were, with the third "failed to send" line
    and the "after 3 attempts" line added to [cout]. *)
Theorem send_throws_iff_three_attempts_throw {G : Type} {E : Engine G}
    (recv : addr -> Packet -> addr -> M G unit)
    (self : addr) (packet : Packet) (receiver : addr) (w w' : World G)
    (e : exception) :
  send_with recv self packet receiver w = Some (Thrown e, w') <->
  exists e1 w1 e2 w2 e3 w3,
    recv receiver packet self
         {| nodes := nodes w;
            gen := snd (uniform_int 500 1000 (gen w));
            cout := cout w ++
                    [Sending (getName self w) (type packet) (data packet)
                             (sequenceNumber packet) (getName receiver w) 1] |}
      = Some (Thrown e1, w1) /\
    recv receiver packet self
         {| nodes := nodes w1;
            gen := snd (uniform_int 500 1000 (gen w1));
            cout := cout w1 ++
                    [SendFailed (getName self w1) (getName receiver w1) (what e1);
                     Sending (getName self w1) (type packet) (data packet)
                             (sequenceNumber packet) (getName receiver w1) 2] |}
      = Some (Thrown e2, w2) /\
    recv receiver packet self
         {| nodes := nodes w2;
            gen := snd (uniform_int 500 1000 (gen w2));
            cout := cout w2 ++
                    [SendFailed (getName self w2) (getName receiver w2) (what e2);
                     Sending (getName self w2) (type packet) (data packet)
                             (sequenceNumber packet) (getName receiver w2) 3] |}
      = Some (Thrown e3, w3) /\
    e = DeliveryExhausted /\
    w' = {| nodes := nodes w3;
            gen := gen w3;
            cout := cout w3 ++
                    [SendFailed (getName self w3) (getName receiver w3) (what e3);
                     SendGaveUp (getName self w3) (sequenceNumber packet)
                                (getName receiver w3) 3] |}.
Proof.
  assert (Hwire : forall retryCount e0 (v : World G),
            on_the_wire self packet receiver retryCount
                        (after_failure self receiver e0 v) =
            {| nodes := nodes v;
               gen := snd (uniform_int 500 1000 (gen v));
               cout := cout v ++
                       [SendFailed (getName self v) (getName receiver v) (what e0);
                        Sending (getName self v) (type packet) (data packet)
                                (sequenceNumber packet) (getName receiver v)
                                (retryCount + 1)] |}).
  { intros retryCount e0 v.
    unfold on_the_wire, after_failure, printed, drawn. cbn.
    now rewrite <- app_assoc. }
  assert (Hend : forall e0 (v : World G),
            printed (gave_up_line self packet receiver)
                    (after_failure self receiver e0 v) =
            {| nodes := nodes v;
               gen := gen v;
               cout := cout v ++
                       [SendFailed (getName self v) (getName receiver v) (what e0);
                        SendGaveUp (getName self v) (sequenceNumber packet)
                                   (getName receiver v) 3] |}).
  { intros e0 v. unfold after_failure, printed. cbn. now rewrite <- app_assoc. }
  rewrite send_throws_chain.
  split; intros (e1 & w1 & e2 & w2 & e3 & w3 & H1 & H2 & H3 & He & Hw);
    exists e1, w1, e2, w2, e3, w3.
  - rewrite (Hwire 1 e1 w1) in H2. rewrite (Hwire 2 e2 w2) in H3.
    rewrite Hend in Hw. auto.
  - rewrite (Hwire 1 e1 w1), (Hwire 2 e2 w2), Hend. auto.
Qed.

Lemma stopped_node_still_receives_witness :
  running (nodes stopped_world 1%nat) = false /\
  (exists w' rest,
     Plain.send 1 0%nat packet1 1%nat stopped_world = Some (Returned tt, w') /\
     running (nodes w' 1%nat) = false /\
     buffer (nodes w' 1%nat) = buffer (nodes stopped_world 1%nat) ++ packet1 :: rest /\
     (type packet1 = DATA ->
      In (Sending (getName 1%nat stopped_world) ACK "ACK" (sequenceNumber packet1)
                  (getName 0%nat stopped_world) 1) (cout w'))) /\
  (exists w',
     Lossy.send 1 0%nat packet1 1%nat stopped_world = Some (Returned tt, w') /\
     running (nodes w' 1%nat) = false /\
     (Lossy.lost (on_the_wire 0%nat packet1 1%nat 0 stopped_world) = false ->
      exists q rest,
        (q = packet1 \/ q = Lossy.corrupt packet1) /\
        buffer (nodes w' 1%nat) = buffer (nodes stopped_world 1%nat) ++ q :: rest)).
Proof.
  split; [reflexivity |].
  apply (stopped_node_still_receives 0 0%nat packet1 1%nat stopped_world).
  reflexivity.
Defined.

Lemma main_returns_zero_witness :
  (forall a p b (w : World Script), send_with failing_receive a p b w <> None) /\
  exists cerr w',
    main (send_with failing_receive) ([] : Script) = Some (Returned (0, cerr), w') /\
    running (nodes w' 1%nat) = false /\
    (cerr = [] \/
     exists e, cerr = [String.append "Failed to send packet: " (what e)]).
Proof.
  split.
  - intros a p b w. discriminate.
  - apply (main_returns_zero (send_with failing_receive) ([] : Script)).
    intros a p b w. discriminate.
Defined.

Lemma failed_first_send_skips_second_packet_witness :
  (forall w0 : World Script,
     exists e w1, failing_receive 1%nat packet1 0%nat w0 = Some (Thrown e, w1)) /\
  exists w1,
    send_with failing_receive 0%nat packet1 1%nat (main_world ([] : Script))
      = Some (Thrown DeliveryExhausted, w1) /\
    main (send_with failing_receive) ([] : Script) =
      Some (Returned
              (0, ["Failed to send packet: Failed to send packet after maximum retries"]),
            updated 1%nat (set_running false) w1).
Proof.
  split.
  - intros w0. eexists _, _. reflexivity.
  - apply (failed_first_send_skips_second_packet failing_receive ([] : Script)).
    intros w0. eexists _, _. reflexivity.
Defined.

(** The demonstration against a node B whose [receive] always throws: the
    lines of the main thread. *)
Example failing_main_lines :
  option_map (fun r => (fst r, cout (snd r)))
    (main (send_with failing_receive) ([] : Script)) =
  Some (Returned
          (0, ["Failed to send packet: Failed to send packet after maximum retries"]),
        [Sending "Node A" DATA "Test" 1 "Node B" 1;
         SendFailed "Node A" "Node B" "receive failed";
         Sending "Node A" DATA "Test" 1 "Node B" 2;
         SendFailed "Node A" "Node B" "receive failed";
         Sending "Node A" DATA "Test" 1 "Node B" 3;
         SendFailed "Node A" "Node B" "receive failed";
         SendGaveUp "Node A" 1 "Node B" 3]).
Proof. reflexivity. Qed.
